(** * CSV importer of the company directory: a shallow embedding

    The development follows [src/components/CSVUploader.tsx]: the helpers
    [generateId], [isRowEmpty] and [convertToRecord], and the import run
    [processCSV].  JavaScript strings are modelled as [string]; the
    embedding covers texts whose code units are ASCII (below 128), for which
    the case mappings and the white space class below are the ones of
    ECMAScript. *)

From Stdlib Require Import ZArith Ascii String DecimalString DecimalPos.
From stdpp Require Import gmap strings list fin_maps.

Set Warnings "-register-all".
Local Open Scope string_scope.

(** ** JavaScript string primitives *)

Module Js.

(** White space removed by [String.prototype.trim] and skipped by
    [parseInt]: TAB, LF, VT, FF, CR and SPACE. *)
Definition isWhiteSpace (c : ascii) : bool := Ascii.is_space c.

Fixpoint trimStart (s : string) : string :=
  match s with
  | String c r => if isWhiteSpace c then trimStart r else s
  | EmptyString => EmptyString
  end.

Fixpoint trimEnd (s : string) : string :=
  match s with
  | String c r =>
      match trimEnd r with
      | EmptyString => if isWhiteSpace c then EmptyString else String c EmptyString
      | r' => String c r'
      end
  | EmptyString => EmptyString
  end.

(** [s.trim()] *)
Definition trim (s : string) : string := trimEnd (trimStart s).

(** [!s.trim()]: the trimmed string is empty, hence falsy. *)
Definition blank (s : string) : bool := bool_decide (trim s = "").

(** [s.split(sep)] for a separator of one code unit; the result is never
    empty, and [''.split(sep)] is [['']]. *)
Fixpoint split (sep : ascii) (s : string) : list string :=
  match s with
  | EmptyString => [EmptyString]
  | String c r =>
      if bool_decide (c = sep) then EmptyString :: split sep r
      else match split sep r with
           | h :: t => String c h :: t
           | [] => [String c EmptyString]
           end
  end.

Definition lowerChar (c : ascii) : ascii :=
  let n := nat_of_ascii c in
  if (65 <=? n)%nat && (n <=? 90)%nat then ascii_of_nat (n + 32) else c.

Definition upperChar (c : ascii) : ascii :=
  let n := nat_of_ascii c in
  if (97 <=? n)%nat && (n <=? 122)%nat then ascii_of_nat (n - 32) else c.

Fixpoint mapChars (f : ascii -> ascii) (s : string) : string :=
  match s with
  | String c r => String (f c) (mapChars f r)
  | EmptyString => EmptyString
  end.

Definition toLowerCase : string -> string := mapChars lowerChar.
Definition toUpperCase : string -> string := mapChars upperChar.

Fixpoint repeatChar (c : ascii) (n : nat) : string :=
  match n with
  | O => EmptyString
  | S k => String c (repeatChar c k)
  end.

(** [s.padStart(n, c)] for a one-unit filler. *)
Definition padStart (n : nat) (c : ascii) (s : string) : string :=
  repeatChar c (n - String.length s) ++ s.

(** JavaScript numbers, as far as [generateId] needs them: [NaN] or an
    integer.  Integers are exact here; they agree with the doubles of the
    engine below 2^53. *)
Inductive num := NaN | Int (z : Z).

Definition digitValue (c : ascii) : option Z :=
  let n := nat_of_ascii c in
  if (48 <=? n)%nat && (n <=? 57)%nat then Some (Z.of_nat (n - 48))
  else if (97 <=? n)%nat && (n <=? 122)%nat then Some (Z.of_nat (n - 87))
  else if (65 <=? n)%nat && (n <=? 90)%nat then Some (Z.of_nat (n - 55))
  else None.

(** The longest prefix of digits of the radix, read as an integer; [None]
    when no digit was read. *)
Fixpoint digits (radix : Z) (acc : option Z) (s : string) : option Z :=
  match s with
  | String c r =>
      match digitValue c with
      | Some d =>
          if (d <? radix)%Z
          then digits radix (Some (radix * default 0%Z acc + d)%Z) r
          else acc
      | None => acc
      end
  | EmptyString => acc
  end.

Definition stripHexPrefix (s : string) : option string :=
  match s with
  | String "0" (String "x" r) | String "0" (String "X" r) => Some r
  | _ => None
  end.

Definition parseUnsigned (s : string) : option Z :=
  match stripHexPrefix s with
  | Some r => digits 16 None r
  | None => digits 10 None s
  end.

(** [parseInt(x)] without a radix; [None] is [undefined], which reads as
    the text ["undefined"] and so yields [NaN]. *)
Definition parseInt (x : option string) : num :=
  match x with
  | None => NaN
  | Some s =>
      let t := trimStart s in
      let '(neg, body) :=
        match t with
        | String "-" r => (true, r)
        | String "+" r => (false, r)
        | _ => (false, t)
        end in
      match parseUnsigned body with
      | Some z => Int (if neg : bool then - z else z)
      | None => NaN
      end
  end.

Definition add1 (n : num) : num :=
  match n with
  | NaN => NaN
  | Int z => Int (z + 1)
  end.

(** [String(n)] *)
Definition toString (n : num) : string :=
  match n with
  | NaN => "NaN"
  | Int z => NilZero.string_of_int (Z.to_int z)
  end.

(** [a || d] on a possibly undefined string [a]. *)
Definition orElse (a : option string) (d : string) : string :=
  match a with
  | Some (String c r) => String c r
  | _ => d
  end.

(** Truthiness of a possibly undefined string. *)
Definition truthy (a : option string) : bool :=
  match a with
  | Some (String _ _) => true
  | _ => false
  end.

End Js.

(** ** [JSON.parse]

    The built-in is embedded as a one-pass pushdown recogniser of the JSON
    grammar (ECMA-404) that also builds the value.  Numbers and string
    literals are kept as their lexemes: the importer stores the value
    without inspecting it. *)

Module Json.

Inductive value :=
| Null
| Bool (b : bool)
| Number (lexeme : string)
| Str (raw : string)
| Array (items : list value)
| Object (members : list (string * value)).

(** Containers still open, innermost first; items are kept in reverse. *)
Inductive frame :=
| FArray (items : list value)
| FObject (members : list (string * value))
| FMember (members : list (string * value)) (key : string).

(** What the grammar allows next, between two tokens. *)
Inductive expect :=
| EValue
| EValueOrEnd
| EKeyOrEnd
| EKey
| EColon (key : string)
| ECommaOrEnd
| EDone (v : value).

Inductive numState :=
| NMinus | NZero | NInt | NDot | NFrac | NExp | NExpSign | NExpDigits.

(** The token being read, with its characters so far in reverse. *)
Inductive lexer :=
| LNone
| LString (acc : string)
| LEscape (acc : string)
| LHex (acc : string) (remaining : nat)
| LNumber (st : numState) (acc : string)
| LLiteral (rest : string) (v : value).

Record state := State { lx : lexer; ex : expect; stack : list frame }.

Definition isJsonSpace (c : ascii) : bool :=
  match c with
  | " " | "009" | "010" | "013" => true
  | _ => false
  end%char.

Definition isDigit (c : ascii) : bool :=
  let n := nat_of_ascii c in (48 <=? n)%nat && (n <=? 57)%nat.

Definition isHexDigit (c : ascii) : bool :=
  let n := nat_of_ascii c in
  isDigit c || ((97 <=? n)%nat && (n <=? 102)%nat)
            || ((65 <=? n)%nat && (n <=? 70)%nat).

Definition wantsValue (e : expect) : bool :=
  match e with
  | EValue | EValueOrEnd => true
  | _ => false
  end.

Definition wantsKey (e : expect) : bool :=
  match e with
  | EKeyOrEnd | EKey => true
  | _ => false
  end.

(** A value is complete: it becomes the result, an array item or the value
    of the pending member. *)
Definition finish (v : value) (st : list frame) : option state :=
  match st with
  | [] => Some (State LNone (EDone v) [])
  | FArray items :: st' => Some (State LNone ECommaOrEnd (FArray (v :: items) :: st'))
  | FMember ms k :: st' => Some (State LNone ECommaOrEnd (FObject ((k, v) :: ms) :: st'))
  | FObject _ :: _ => None
  end.

(** A string literal is complete: a member name or a value. *)
Definition finishString (raw : string) (e : expect) (st : list frame) : option state :=
  if wantsKey e then Some (State LNone (EColon raw) st)
  else if wantsValue e then finish (Str raw) st
  else None.

(** One character read between two tokens. *)
Definition token (c : ascii) (e : expect) (st : list frame) : option state :=
  if isJsonSpace c then Some (State LNone e st)
  else match c with
  | "034" => if wantsValue e || wantsKey e then Some (State (LString "") e st) else None
  | "[" => if wantsValue e then Some (State LNone EValueOrEnd (FArray [] :: st)) else None
  | "{" => if wantsValue e then Some (State LNone EKeyOrEnd (FObject [] :: st)) else None
  | "]" =>
      match e, st with
      | EValueOrEnd, FArray items :: st' | ECommaOrEnd, FArray items :: st' =>
          finish (Array (rev items)) st'
      | _, _ => None
      end
  | "}" =>
      match e, st with
      | EKeyOrEnd, FObject ms :: st' | ECommaOrEnd, FObject ms :: st' =>
          finish (Object (rev ms)) st'
      | _, _ => None
      end
  | "," =>
      match e, st with
      | ECommaOrEnd, FArray _ :: _ => Some (State LNone EValue st)
      | ECommaOrEnd, FObject _ :: _ => Some (State LNone EKey st)
      | _, _ => None
      end
  | ":" =>
      match e, st with
      | EColon k, FObject ms :: st' => Some (State LNone EValue (FMember ms k :: st'))
      | _, _ => None
      end
  | "-" => if wantsValue e then Some (State (LNumber NMinus "-") e st) else None
  | "0" => if wantsValue e then Some (State (LNumber NZero "0") e st) else None
  | "t" => if wantsValue e then Some (State (LLiteral "rue" (Bool true)) e st) else None
  | "f" => if wantsValue e then Some (State (LLiteral "alse" (Bool false)) e st) else None
  | "n" => if wantsValue e then Some (State (LLiteral "ull" Null) e st) else None
  | _ =>
      if isDigit c && wantsValue e
      then Some (State (LNumber NInt (String c "")) e st)
      else None
  end%char.

Definition numAccepting (n : numState) : bool :=
  match n with
  | NZero | NInt | NFrac | NExpDigits => true
  | _ => false
  end.

(** The number automaton; [None] when [c] does not continue the number. *)
Definition numStep (n : numState) (c : ascii) : option numState :=
  let e := bool_decide (c = "e"%char) || bool_decide (c = "E"%char) in
  let dot := bool_decide (c = "."%char) in
  let sign := bool_decide (c = "+"%char) || bool_decide (c = "-"%char) in
  match n with
  | NMinus => if bool_decide (c = "0"%char) then Some NZero
              else if isDigit c then Some NInt else None
  | NZero => if dot then Some NDot else if e then Some NExp else None
  | NInt => if isDigit c then Some NInt
            else if dot then Some NDot else if e then Some NExp else None
  | NDot => if isDigit c then Some NFrac else None
  | NFrac => if isDigit c then Some NFrac else if e then Some NExp else None
  | NExp => if isDigit c then Some NExpDigits
            else if sign then Some NExpSign else None
  | NExpSign | NExpDigits => if isDigit c then Some NExpDigits else None
  end.

Definition step (s : state) (c : ascii) : option state :=
  let '(State l e st) := s in
  match l with
  | LNone => token c e st
  | LString acc =>
      if bool_decide (c = "034"%char) then finishString (String.rev acc) e st
      else if bool_decide (c = "\"%char) then Some (State (LEscape (String c acc)) e st)
      else if (nat_of_ascii c <? 32)%nat then None
      else Some (State (LString (String c acc)) e st)
  | LEscape acc =>
      match c with
      | "034" | "\" | "/" | "b" | "f" | "n" | "r" | "t" =>
          Some (State (LString (String c acc)) e st)
      | "u" => Some (State (LHex (String c acc) 4) e st)
      | _ => None
      end%char
  | LHex acc k =>
      if isHexDigit c
      then match k with
           | 1 | 0 => Some (State (LString (String c acc)) e st)
           | S k' => Some (State (LHex (String c acc) k') e st)
           end
      else None
  | LNumber n acc =>
      match numStep n c with
      | Some n' => Some (State (LNumber n' (String c acc)) e st)
      | None =>
          if numAccepting n
          then s' ← finish (Number (String.rev acc)) st;
               token c (ex s') (stack s')
          else None
      end
  | LLiteral rest v =>
      match rest with
      | String c' EmptyString => if bool_decide (c = c') then finish v st else None
      | String c' rest' =>
          if bool_decide (c = c') then Some (State (LLiteral rest' v) e st) else None
      | EmptyString => None
      end
  end.

Fixpoint run (s : state) (text : string) : option state :=
  match text with
  | EmptyString => Some s
  | String c r => s' ← step s c; run s' r
  end.

(** End of input: a number still being read ends here; the text must have
    held exactly one value. *)
Definition close (s : state) : option value :=
  let '(State l e st) := s in
  s' ← match l with
       | LNone => Some s
       | LNumber n acc =>
           if numAccepting n then finish (Number (String.rev acc)) st else None
       | _ => None
       end;
  match lx s', ex s' with
  | LNone, EDone v => Some v
  | _, _ => None
  end.

(** The text of a string literal with content [s]. *)
Definition quoted (s : string) : string :=
  String "034" (s ++ String "034" EmptyString).

(** [JSON.parse(text)]; [None] stands for the [SyntaxError] it throws. *)
Definition parse (text : string) : option value :=
  run (State LNone EValue []) text ≫= close.

End Json.

(** ** The record type and the environment of the component *)

(** [Record] of [../types], with the fields the importer fills in. *)
Module CompanyRecord.

Record SocialMedia := { twitter : string; linkedin : string }.

Record t := {
  id : string;
  status : string;
  level : string;
  lastAccessed : string;
  subject : string;
  details : string;
  requiredClearance : string;
  name : string;
  address : string;
  zipCode : string;
  city : string;
  country : string;
  logo : string;
  images : Json.value;
  category : list string;
  tags : list string;
  socialMedia : SocialMedia;
  description : string;
  sourceFound : string;
  ceo : string;
  language : list string;
  taxId : string;
  verificationStatus : gmap string string
}.

End CompanyRecord.

(** What the component reads from outside: the record store behind
    [getAllRecords()] of [../utils/recordManager], the text of
    [new Date().toISOString()], and the message the engine puts in the
    [SyntaxError] of [JSON.parse].  The clock is read once for each
    converted row; one text stands for all the readings of a run, so the
    embedding covers runs during which the date does not change. *)
Record Env := {
  getAllRecords : list CompanyRecord.t;
  nowISO : string;
  syntaxErrorMessage : string -> string
}.

Inductive exn :=
| Error (message : string)
| SyntaxError (message : string)
| TypeError (message : string).

Definition message (e : exn) : string :=
  match e with
  | Error m | SyntaxError m | TypeError m => m
  end.

(** What a [catch] block can receive: an [Error] object, or any other
    value (a promise may reject with one). *)
Inductive thrown :=
| ErrorObject (e : exn)
| OtherValue.

(** [error instanceof Error ? error.message : 'Failed to process CSV file'] *)
Definition catchMessage (error : thrown) : string :=
  match error with
  | ErrorObject e => message e
  | OtherValue => "Failed to process CSV file"
  end.

Module UploadStatus.
Inductive t := idle | processing | success | error.
End UploadStatus.

(** Calls that leave the component, in the order they are made. *)
Inductive Effect :=
| PlaySound (type : string)
| ConsoleLog (label : string) (records : list CompanyRecord.t)
| SetTimeoutOnClose (ms : nat).

(** The [useState] cells of the component that [processCSV] writes, and
    the trace of its outside calls. *)
Record State := {
  uploadStatus : UploadStatus.t;
  errorMessage : string;
  processedRows : nat;
  skippedRows : nat;
  effects : list Effect
}.

(** Statements of the [try] block: they update the state and either
    return or throw. *)
Definition M (A : Type) : Type := State -> State * (exn + A).

Definition ret {A} (a : A) : M A := fun s => (s, inr a).
Definition throw {A} (e : exn) : M A := fun s => (s, inl e).
Definition bind {A B} (m : M A) (k : A -> M B) : M B :=
  fun s => match m s with
           | (s', inr a) => k a s'
           | (s', inl e) => (s', inl e)
           end.
Definition modify (f : State -> State) : M unit := fun s => (f s, inr tt).
Definition liftE {A} (r : exn + A) : M A := fun s => (s, r).

Notation "x <- m ;; k" := (bind m (fun x => k))
  (at level 100, m at next level, right associativity).
Notation "m ;;; k" := (bind m (fun _ => k))
  (at level 100, right associativity).

Definition setUploadStatus (v : UploadStatus.t) : M unit :=
  modify (fun s => {| uploadStatus := v; errorMessage := errorMessage s;
                      processedRows := processedRows s; skippedRows := skippedRows s;
                      effects := effects s |}).
Definition setErrorMessage (v : string) : M unit :=
  modify (fun s => {| uploadStatus := uploadStatus s; errorMessage := v;
                      processedRows := processedRows s; skippedRows := skippedRows s;
                      effects := effects s |}).
Definition setProcessedRows (f : nat -> nat) : M unit :=
  modify (fun s => {| uploadStatus := uploadStatus s; errorMessage := errorMessage s;
                      processedRows := f (processedRows s); skippedRows := skippedRows s;
                      effects := effects s |}).
Definition setSkippedRows (f : nat -> nat) : M unit :=
  modify (fun s => {| uploadStatus := uploadStatus s; errorMessage := errorMessage s;
                      processedRows := processedRows s; skippedRows := f (skippedRows s);
                      effects := effects s |}).
Definition perform (e : Effect) : M unit :=
  modify (fun s => {| uploadStatus := uploadStatus s; errorMessage := errorMessage s;
                      processedRows := processedRows s; skippedRows := skippedRows s;
                      effects := (effects s ++ [e])%list |}).

(** ** The importer *)

(** The line feed on which the text of the file is split. *)
Definition LF : ascii := ascii_of_nat 10.

Section Importer.

Variable env : Env.

(** [generateId] *)
Definition generateId : string :=
  let records := getAllRecords env in
  let lastId := Js.orElse (CompanyRecord.id <$> last records) "CORP-0000" in
  let lastNumber := Js.parseInt (Js.split "-" lastId !! 1%nat) in
  "CORP-" ++ Js.padStart 4 "0" (Js.toString (Js.add1 lastNumber)).

(** [isRowEmpty] *)
Definition isRowEmpty (data : gmap string string) : bool :=
  bool_decide (map_Forall (fun _ value => Js.blank value = true) data).

(** [value.split(',').map(x => x.trim().toUpperCase())] *)
Definition upperList (value : string) : list string :=
  (fun c => Js.toUpperCase (Js.trim c)) <$> Js.split "," value.

(** A comma-separated column: [data.k?.trim() ? upperList data.k : dflt] *)
Definition listColumn (cell : option string) (dflt : list string) : list string :=
  match cell with
  | Some value => if Js.blank value then dflt else upperList value
  | None => dflt
  end.

(** [data.k?.trim() || dflt] *)
Definition textColumn (cell : option string) (dflt : string) : string :=
  Js.orElse (Js.trim <$> cell) dflt.

(** [data.images ? JSON.parse(data.images.trim() || '[]') : []] *)
Definition imagesColumn (cell : option string) : exn + Json.value :=
  if Js.truthy cell then
    let text := Js.orElse (Js.trim <$> cell) "[]" in
    match Json.parse text with
    | Some v => inr v
    | None => inl (SyntaxError (syntaxErrorMessage env text))
    end
  else inr (Json.Array []).

(** [convertToRecord]: [inr None] is the [null] result, [inl] a throw. *)
Definition convertToRecord (data : gmap string string)
  : exn + option CompanyRecord.t :=
  if isRowEmpty data then inr None
  else match data !! "company_name" with
  | None => inr None
  | Some company_name =>
      if Js.blank company_name then inr None
      else
        match imagesColumn (data !! "images") with
        | inl e => inl e
        | inr images =>
            inr (Some {|
              CompanyRecord.id := generateId;
              CompanyRecord.status := "ACTIVE";
              CompanyRecord.level := "PUBLIC";
              CompanyRecord.lastAccessed := default "" (head (Js.split "T" (nowISO env)));
              CompanyRecord.subject := Js.trim company_name;
              CompanyRecord.details :=
                textColumn (data !! "description") (Js.trim company_name);
              CompanyRecord.requiredClearance := "PUBLIC";
              CompanyRecord.name := Js.trim company_name;
              CompanyRecord.address := textColumn (data !! "address") "";
              CompanyRecord.zipCode := textColumn (data !! "zipCode") "";
              CompanyRecord.city := textColumn (data !! "city") "";
              CompanyRecord.country := textColumn (data !! "country") "";
              CompanyRecord.logo :=
                textColumn (data !! "logo")
                  "https://images.unsplash.com/photo-1516245834210-c4c142787335?auto=format&fit=crop&w=300";
              CompanyRecord.images := images;
              CompanyRecord.category := listColumn (data !! "category") [];
              CompanyRecord.tags := listColumn (data !! "tags") [];
              CompanyRecord.socialMedia := {|
                CompanyRecord.twitter := textColumn (data !! "twitter") "";
                CompanyRecord.linkedin := textColumn (data !! "linkedin") "" |};
              CompanyRecord.description := textColumn (data !! "description") "";
              CompanyRecord.sourceFound := "Company Website";
              CompanyRecord.ceo := textColumn (data !! "ceo") "";
              CompanyRecord.language := listColumn (data !! "language") ["ENGLISH"];
              CompanyRecord.taxId := textColumn (data !! "taxId") "";
              CompanyRecord.verificationStatus := ∅
            |})
        end
  end.

(** [data[header] = value] on a plain object: the key [__proto__] reaches
    the inherited setter, which ignores a string, so no property is made. *)
Definition setProperty (header value : string) (data : gmap string string)
  : gmap string string :=
  if bool_decide (header = "__proto__") then data else <[header := value]> data.

(** [l.forEach((x, index) => ...)] threading the object the callback
    mutates; [index] is the position of the first element of [l]. *)
Fixpoint forEach {A B : Type} (f : B -> A -> nat -> B) (l : list A) (index : nat) (s : B) : B :=
  match l with
  | [] => s
  | x :: r => forEach f r (S index) (f s x index)
  end.

(** [lines[0].toLowerCase().split(',').map(h => h.trim())] *)
Definition parseHeaders (line : string) : list string :=
  Js.trim <$> Js.split "," (Js.toLowerCase line).

(** The field mapping of one line: lines 101 to 106. *)
Definition rowData (headers : list string) (line : string) : gmap string string :=
  let values := Js.trim <$> Js.split "," line in
  forEach (fun data header index =>
             setProperty header (Js.orElse (values !! index) "") data)
          headers 0%nat ∅.

(** The body of the [for] loop for one line. *)
Definition processLine (headers : list string) (line : string)
    (newRecords : list CompanyRecord.t) : M (list CompanyRecord.t) :=
  if Js.blank line then
    setSkippedRows S ;;; ret newRecords
  else
    record <- liftE (convertToRecord (rowData headers line)) ;;
    match record with
    | Some r => setProcessedRows S ;;; ret (newRecords ++ [r])%list
    | None => setSkippedRows S ;;; ret newRecords
    end.

(** [for (let i = 1; i < lines.length; i++)], over the lines from 1 on. *)
Fixpoint processLines (headers : list string) (lines : list string)
    (newRecords : list CompanyRecord.t) : M (list CompanyRecord.t) :=
  match lines with
  | [] => ret newRecords
  | line :: rest =>
      newRecords' <- processLine headers line newRecords ;;
      processLines headers rest newRecords'
  end.

Definition missingColumn : string :=
  "Invalid CSV format. Required column " ++ Json.quoted "company_name" ++ " is missing.".

(** The [try] block of [processCSV], from the text of the file on. *)
Definition tryBlock (text : string) : M unit :=
  let lines := Js.split LF text in
  match lines with
  | [] => throw (TypeError "lines[0] is undefined")
  | line0 :: _ =>
      let headers := parseHeaders line0 in
      if negb (bool_decide (("company_name" : string) ∈ headers)) then
        throw (Error missingColumn)
      else
        newRecords <- processLines headers (drop 1 lines) [] ;;
        perform (ConsoleLog "New records:" newRecords) ;;;
        setUploadStatus UploadStatus.success ;;;
        perform (PlaySound "login") ;;;
        perform (SetTimeoutOnClose 3000)
  end.

(** [processCSV], for a file whose [text()] resolves to [text]; every
    value the [try] block then throws is an [Error] object. *)
Definition processCSV (text : string) (s : State) : State :=
  let prologue :=
    setUploadStatus UploadStatus.processing ;;;
    setProcessedRows (fun _ => 0%nat) ;;;
    setSkippedRows (fun _ => 0%nat) ;;;
    perform (PlaySound "diskRead") in
  match (prologue ;;; tryBlock text) s with
  | (s', inr _) => s'
  | (s', inl error) =>
      fst ((setUploadStatus UploadStatus.error ;;;
            setErrorMessage (catchMessage (ErrorObject error)) ;;;
            perform (PlaySound "error")) s')
  end.

(** ** States and outcomes the statements refer to *)

(** The state after a line was counted as skipped, or as processed. *)
Definition countSkipped (s : State) : State :=
  {| uploadStatus := uploadStatus s; errorMessage := errorMessage s;
     processedRows := processedRows s; skippedRows := S (skippedRows s);
     effects := effects s |}.

Definition countProcessed (s : State) : State :=
  {| uploadStatus := uploadStatus s; errorMessage := errorMessage s;
     processedRows := S (processedRows s); skippedRows := skippedRows s;
     effects := effects s |}.

(** The [company_name] field of a field mapping is missing or blank. *)
Definition companyNameBlank (data : gmap string string) : bool :=
  match data !! "company_name" with
  | Some company_name => Js.blank company_name
  | None => true
  end.

(** What one line amounts to: a throw, a record, or a skip. *)
Definition rowOutcome (headers : list string) (line : string)
  : exn + option CompanyRecord.t :=
  if Js.blank line then inr None else convertToRecord (rowData headers line).

(** The state when the [try] block is entered. *)
Definition started (s : State) : State :=
  {| uploadStatus := UploadStatus.processing; errorMessage := errorMessage s;
     processedRows := 0; skippedRows := 0;
     effects := effects s ++ [PlaySound "diskRead"] |}.

(** The state the [catch] block leaves. *)
Definition failed (s : State) (msg : string) : State :=
  {| uploadStatus := UploadStatus.error; errorMessage := msg;
     processedRows := processedRows s; skippedRows := skippedRows s;
     effects := effects s ++ [PlaySound "error"] |}.

(** The state at the end of a [try] block that did not throw. *)
Definition succeeded (s : State) (newRecords : list CompanyRecord.t) : State :=
  {| uploadStatus := UploadStatus.success; errorMessage := errorMessage s;
     processedRows := processedRows s; skippedRows := skippedRows s;
     effects := effects s ++ [ConsoleLog "New records:" newRecords;
                              PlaySound "login"; SetTimeoutOnClose 3000] |}.

End Importer.

(** ** Predicates and sample inputs of the statements *)

(** Every character of [s] satisfies [P]. *)
Fixpoint allChars (P : ascii -> bool) (s : string) : bool :=
  match s with
  | String c r => P c && allChars P r
  | EmptyString => true
  end.

Definition isUpper (c : ascii) : bool :=
  let n := nat_of_ascii c in (65 <=? n)%nat && (n <=? 90)%nat.

(** The numeric suffix [generateId] reads off an id. *)
Definition idSuffix (i : string) : Js.num :=
  Js.parseInt (Js.split "-" i !! 1%nat).

(** The highest id suffix among the known records, in the words of the
    specification; [generateId] does not compute it. *)
Fixpoint highestSuffix (records : list CompanyRecord.t) : option Z :=
  match records with
  | [] => None
  | r :: rest =>
      match idSuffix (CompanyRecord.id r), highestSuffix rest with
      | Js.Int z, Some m => Some (Z.max z m)
      | Js.Int z, None => Some z
      | Js.NaN, m => m
      end
  end.

(** The field mapping of the object literal [{ k1: v1, ... }]. *)
Definition object (fields : list (string * string)) : gmap string string :=
  list_to_map fields.

(** A stored record that carries a given id. *)
Definition recordWithId (i : string) : CompanyRecord.t :=
  {| CompanyRecord.id := i;
     CompanyRecord.status := "ACTIVE"; CompanyRecord.level := "PUBLIC";
     CompanyRecord.lastAccessed := "2024-01-01"; CompanyRecord.subject := "Stored";
     CompanyRecord.details := "Stored"; CompanyRecord.requiredClearance := "PUBLIC";
     CompanyRecord.name := "Stored"; CompanyRecord.address := "";
     CompanyRecord.zipCode := ""; CompanyRecord.city := ""; CompanyRecord.country := "";
     CompanyRecord.logo := ""; CompanyRecord.images := Json.Array [];
     CompanyRecord.category := []; CompanyRecord.tags := [];
     CompanyRecord.socialMedia := {| CompanyRecord.twitter := ""; CompanyRecord.linkedin := "" |};
     CompanyRecord.description := ""; CompanyRecord.sourceFound := "Company Website";
     CompanyRecord.ceo := ""; CompanyRecord.language := ["ENGLISH"];
     CompanyRecord.taxId := ""; CompanyRecord.verificationStatus := ∅ |}.

(** An environment whose store holds records with the given ids. *)
Definition storeOf (ids : list string) : Env :=
  {| getAllRecords := recordWithId <$> ids;
     nowISO := "2024-05-06T07:08:09.000Z";
     syntaxErrorMessage := fun text => "Unexpected token in JSON: " ++ text |}.

Definition idleState : State :=
  {| uploadStatus := UploadStatus.idle; errorMessage := "";
     processedRows := 0; skippedRows := 0; effects := [] |}.

(** The text of a file with the given lines, joined by line feeds. *)
Fixpoint csv (lines : list string) : string :=
  match lines with
  | [] => ""
  | [line] => line
  | line :: rest => line ++ String LF (csv rest)
  end.

(** ** What a run computes, line by line *)

(** The record a line contributes to a run, if it contributes one. *)
Definition recordOf (env : Env) (headers : list string) (line : string)
  : option CompanyRecord.t :=
  match rowOutcome env headers line with
  | inr (Some r) => Some r
  | _ => None
  end.

(** The line makes the loop throw. *)
Definition rowThrows (env : Env) (headers : list string) (line : string) : bool :=
  match rowOutcome env headers line with
  | inl _ => true
  | inr _ => false
  end.

(** The state with both counters moved forward. *)
Definition advance (dp dk : nat) (s : State) : State :=
  {| uploadStatus := uploadStatus s; errorMessage := errorMessage s;
     processedRows := processedRows s + dp; skippedRows := skippedRows s + dk;
     effects := effects s |}.

(** The row is converted and its [images] cell is rejected by
    [JSON.parse]: the [company_name] field is not blank, and the [images]
    field is a non-empty text that does not parse. *)
Definition malformedImages (headers : list string) (line : string) : bool :=
  match rowData headers line !! "company_name", rowData headers line !! "images" with
  | Some company_name, Some cell =>
      negb (Js.blank company_name) && negb (bool_decide (cell = ""))
      && negb (bool_decide (is_Some (Json.parse cell)))
  | _, _ => false
  end.

(** The keys [convertToRecord] reads from the field mapping. *)
Definition recognizedColumns : list string :=
  ["company_name"; "description"; "address"; "zipCode"; "city"; "country";
   "logo"; "images"; "category"; "tags"; "twitter"; "linkedin"; "ceo";
   "language"; "taxId"].

Definition isLower (c : ascii) : bool :=
  let n := nat_of_ascii c in (97 <=? n)%nat && (n <=? 122)%nat.

(** The code unit is an ASCII character; on texts of such units
    [toUpperCase] and [toLowerCase] are the maps of [Js]. *)
Definition isAscii (c : ascii) : bool := (nat_of_ascii c <? 128)%nat.

(** The id [generateId] starts from: that of the last record of the
    store, or [CORP-0000]. *)
Definition lastId (env : Env) : string :=
  Js.orElse (CompanyRecord.id <$> last (getAllRecords env)) "CORP-0000".

(** The carriage return that ends the lines of a file written with CR LF
    line ends. *)
Definition CR : ascii := ascii_of_nat 13.

(** No character of the line is a line feed. *)
Definition oneLine (line : string) : bool :=
  allChars (fun c => negb (bool_decide (c = LF))) line.

(** The cells of a line with [w] added at the end of the last cell. *)
Fixpoint snocLast (w : ascii) (cells : list string) : list string :=
  match cells with
  | [] => []
  | [cell] => [cell ++ String w ""]
  | cell :: rest => cell :: snocLast w rest
  end.

(** The same line, with or without a carriage return at its end. *)
Definition sameLine (a b : string) : Prop := a = b \/ a = b ++ String CR "".

(** ** The handlers of the upload widget *)

(** A [File] as far as the widget uses it: its MIME type, and what
    [file.text()] settles to, a text or the value it rejects with. *)
Module File.
Record t := { type : string; text : thrown + string }.
End File.

(** [processCSV] on a file: [await file.text()] is the first statement of
    the [try] block, so the value of a rejection reaches the [catch] block,
    like the exceptions of the statements after it. *)
Definition processCSVFile (env : Env) (file : File.t) (s : State) : State :=
  let prologue :=
    setUploadStatus UploadStatus.processing ;;;
    setProcessedRows (fun _ => 0%nat) ;;;
    setSkippedRows (fun _ => 0%nat) ;;;
    perform (PlaySound "diskRead") in
  let tried : State * (thrown + unit) :=
    match File.text file with
    | inl rejected => (fst (prologue s), inl rejected)
    | inr text =>
        match (prologue ;;; tryBlock env text) s with
        | (s', inr done) => (s', inr done)
        | (s', inl e) => (s', inl (ErrorObject e))
        end
    end in
  match tried with
  | (s', inr _) => s'
  | (s', inl error) =>
      fst ((setUploadStatus UploadStatus.error ;;;
            setErrorMessage (catchMessage error) ;;;
            perform (PlaySound "error")) s')
  end.

(** The widget: the [isDragging] cell beside the cells [processCSV]
    writes.  [e.preventDefault()] acts on the browser event only. *)
Record Widget := { isDragging : bool; hooks : State }.



(** [handleDrop], for the list [e.dataTransfer.files]. *)
Definition handleDrop (env : Env) (files : list File.t) (w : Widget) : Widget :=
  let w := {| isDragging := false; hooks := hooks w |} in
  match head files with
  | Some file =>
      if bool_decide (File.type file = "text/csv") then
        {| isDragging := isDragging w; hooks := processCSVFile env file (hooks w) |}
      else
        {| isDragging := isDragging w;
           hooks := fst ((setUploadStatus UploadStatus.error ;;;
                          setErrorMessage "Please upload a valid CSV file" ;;;
                          perform (PlaySound "error")) (hooks w)) |}
  | None =>
      {| isDragging := isDragging w;
         hooks := fst ((setUploadStatus UploadStatus.error ;;;
                        setErrorMessage "Please upload a valid CSV file" ;;;
                        perform (PlaySound "error")) (hooks w)) |}
  end.



(** ** The verification control *)

Module VerificationFlag.

Inductive ActionType := verify | flag.

(** The props the handlers and the popup use; [isVerified] only picks a
    colour of the verify icon. *)
Record Props := { field : string; value : string; recordId : string }.

(** The two [useState] cells. *)
Record State := { showPopup : bool; action : option ActionType }.

(** Calls of the callbacks [onVerify] and [onFlag]. *)
Inductive Call := OnVerify (field : string) | OnFlag (field : string).

Definition initial : State := {| showPopup := false; action := None |}.

(** [handleAction] *)
Definition handleAction (props : Props) (type : ActionType) (st : State * list Call)
  : State * list Call :=
  let s1 := {| showPopup := showPopup (fst st); action := Some type |} in
  let s2 := {| showPopup := true; action := action s1 |} in
  (s2, snd st ++ [match type with
                  | verify => OnVerify (field props)
                  | flag => OnFlag (field props)
                  end])%list.

(** The [onClose] handed to the popup. *)
Definition onClose (st : State * list Call) : State * list Call :=
  ({| showPopup := false; action := action (fst st) |}, snd st).

(** What the popup is rendered with, when it is rendered. *)
Record PopupProps := {
  popupAction : option ActionType;
  popupRecordId : string;
  popupFieldName : string
}.

Definition popup (props : Props) (st : State) : option PopupProps :=
  if showPopup st then
    Some {| popupAction := action st; popupRecordId := recordId props;
            popupFieldName := field props |}
  else None.

(** What the user does: a click on one of the two icons, or closing the
    popup. *)
Inductive Event := Click (type : ActionType) | Close.

Definition step (props : Props) (st : State * list Call) (e : Event) : State * list Call :=
  match e with
  | Click type => handleAction props type st
  | Close => onClose st
  end.

Definition run (props : Props) (events : list Event) : State * list Call :=
  foldl (step props) (initial, []) events.

(** The call a click reports. *)
Definition callOf (props : Props) (e : Event) : option Call :=
  match e with
  | Click verify => Some (OnVerify (field props))
  | Click flag => Some (OnFlag (field props))
  | Close => None
  end.

End VerificationFlag.

(** * Properties *)

(** ** The primitives on small inputs *)

Example trim_ex : Js.trim "  a b  " = "a b". Proof. reflexivity. Qed.
Example split_ex : Js.split "," "a, b,c" = ["a"; " b"; "c"]. Proof. reflexivity. Qed.
Example split_empty : Js.split "," "" = [""]. Proof. reflexivity. Qed.
Example parseInt_ex : Js.parseInt (Some "0007") = Js.Int 7. Proof. reflexivity. Qed.
Example pad_ex : Js.padStart 4 "0" (Js.toString (Js.Int 8)) = "0008". Proof. reflexivity. Qed.
Example pad_neg : Js.toString (Js.Int (-8)) = "-8". Proof. reflexivity. Qed.
Example lower_ex : Js.toLowerCase "zipCode" = "zipcode". Proof. reflexivity. Qed.

Example json_empty_array : Json.parse "[]" = Some (Json.Array []). Proof. reflexivity. Qed.
Example json_strings :
  Json.parse ("[" ++ Json.quoted "a" ++ ", " ++ Json.quoted "b" ++ "]")
  = Some (Json.Array [Json.Str "a"; Json.Str "b"]).
Proof. reflexivity. Qed.
Example json_nested :
  Json.parse ("{" ++ Json.quoted "k" ++ ":[1,-2.5e3,true]," ++ Json.quoted "n" ++ ":null}")
  = Some (Json.Object [("k", Json.Array [Json.Number "1"; Json.Number "-2.5e3"; Json.Bool true]);
                       ("n", Json.Null)]).
Proof. reflexivity. Qed.
Example json_bad_escape :
  Json.parse (Json.quoted "a\q") = None.
Proof. reflexivity. Qed.
Example json_unicode_escape :
  Json.parse (Json.quoted "\u00e9") = Some (Json.Str "\u00e9").
Proof. reflexivity. Qed.
Example json_number : Json.parse "12" = Some (Json.Number "12"). Proof. reflexivity. Qed.
Example json_bad_brace : Json.parse "{not json" = None. Proof. reflexivity. Qed.
Example json_bad_empty : Json.parse "" = None. Proof. reflexivity. Qed.
Example json_bad_trailing : Json.parse "[1,]" = None. Proof. reflexivity. Qed.
Example json_bad_leading_zero : Json.parse "[01]" = None. Proof. reflexivity. Qed.
Example json_bad_two_values : Json.parse "1 2" = None. Proof. reflexivity. Qed.

(** ** Strings *)

Section StringFacts.

Lemma split_nonempty sep s : Js.split sep s ≠ [].
Proof.
  destruct s as [|c r]; simpl; [done|].
  case_bool_decide; [done|]. by destruct (Js.split sep r).
Qed.

Lemma split_snoc_sep sep s :
  Js.split sep (s ++ String sep "") = (Js.split sep s ++ [""])%list.
Proof.
  induction s as [|c r IH]; simpl.
  - by rewrite bool_decide_true.
  - change (String c r ++ String sep "") with (String c (r ++ String sep "")).
    simpl. rewrite IH. case_bool_decide; [done|].
    pose proof (split_nonempty sep r). by destruct (Js.split sep r).
Qed.

Lemma split_no_sep sep s :
  allChars (fun c => negb (bool_decide (c = sep))) s = true -> Js.split sep s = [s].
Proof.
  induction s as [|c r IH]; simpl; [done|].
  intros [Hc Hr]%andb_true_iff. rewrite (IH Hr).
  by destruct (bool_decide (c = sep)).
Qed.

Lemma split_allChars P sep s :
  allChars P s = true -> Forall (fun piece => allChars P piece = true) (Js.split sep s).
Proof.
  induction s as [|c r IH]; simpl.
  - by repeat constructor.
  - intros [Hc Hr]%andb_true_iff. specialize (IH Hr).
    case_bool_decide; [by constructor|].
    destruct (Js.split sep r) as [|h t].
    + repeat constructor. simpl. by rewrite Hc.
    + inversion_clear IH. constructor; [|done]. simpl. by rewrite Hc.
Qed.

Lemma trimStart_allChars P s : allChars P s = true -> allChars P (Js.trimStart s) = true.
Proof.
  induction s as [|c r IH]; simpl; [done|].
  intros H. destruct (Js.isWhiteSpace c); [|done].
  apply IH. by apply andb_true_iff in H as [_ ?].
Qed.

Lemma trimEnd_allChars P s : allChars P s = true -> allChars P (Js.trimEnd s) = true.
Proof.
  induction s as [|c r IH]; simpl; [done|].
  intros [Hc Hr]%andb_true_iff. specialize (IH Hr).
  destruct (Js.trimEnd r); [destruct (Js.isWhiteSpace c)|]; simpl in *; by rewrite ?Hc.
Qed.

Lemma trim_allChars P s : allChars P s = true -> allChars P (Js.trim s) = true.
Proof. intros. by apply trimEnd_allChars, trimStart_allChars. Qed.

(** [trimStart] leaves the empty string or one that starts with a
    character that is not white space. *)
Lemma trimStart_head s :
  match Js.trimStart s with
  | String c _ => Js.isWhiteSpace c = false
  | EmptyString => True
  end.
Proof.
  induction s as [|c r IH]; simpl; [done|].
  destruct (Js.isWhiteSpace c) eqn:Hc; [done|]. by rewrite Hc.
Qed.

Lemma trimEnd_idemp s : Js.trimEnd (Js.trimEnd s) = Js.trimEnd s.
Proof.
  induction s as [|c r IH]; simpl; [done|].
  destruct (Js.trimEnd r) as [|c' r'] eqn:Hr.
  - destruct (Js.isWhiteSpace c) eqn:Hc; simpl; [done|]. by rewrite Hc.
  - change (Js.trimEnd (String c (String c' r')))
      with (match Js.trimEnd (String c' r') with
            | EmptyString => if Js.isWhiteSpace c then EmptyString else String c EmptyString
            | x => String c x
            end).
    by rewrite IH.
Qed.

Lemma trimEnd_head c r :
  Js.isWhiteSpace c = false -> exists r', Js.trimEnd (String c r) = String c r'.
Proof.
  intros Hc. simpl. destruct (Js.trimEnd r); rewrite ?Hc; eauto.
Qed.

Lemma trim_idemp s : Js.trim (Js.trim s) = Js.trim s.
Proof.
  unfold Js.trim. pose proof (trimStart_head s) as Hh.
  destruct (Js.trimStart s) as [|c r]; [done|].
  destruct (trimEnd_head c r Hh) as [r' Hr']. rewrite Hr'.
  simpl Js.trimStart. rewrite Hh. by rewrite <- Hr', trimEnd_idemp.
Qed.

Lemma trimEnd_empty s : Js.trimEnd s = "" -> allChars Js.isWhiteSpace s = true.
Proof.
  induction s as [|c r IH]; simpl; [done|].
  destruct (Js.trimEnd r); [|done].
  destruct (Js.isWhiteSpace c); [|done]. intros _. by apply IH.
Qed.

Lemma trimStart_empty s : Js.trimStart s = "" -> allChars Js.isWhiteSpace s = true.
Proof.
  induction s as [|c r IH]; simpl; [done|].
  destruct (Js.isWhiteSpace c); [|done]. exact IH.
Qed.

Lemma blank_allChars s : Js.blank s = true -> allChars Js.isWhiteSpace s = true.
Proof.
  intros H%bool_decide_eq_true. unfold Js.trim in H.
  pose proof (trimStart_head s) as Hh.
  destruct (Js.trimStart s) as [|c r] eqn:Hs; [by apply trimStart_empty|].
  destruct (trimEnd_head c r Hh) as [r' Hr']. congruence.
Qed.

Lemma allChars_impl (P Q : ascii -> bool) s :
  (forall c, P c = true -> Q c = true) -> allChars P s = true -> allChars Q s = true.
Proof.
  intros HPQ. induction s as [|c r IH]; simpl; [done|].
  intros [Hc Hr]%andb_true_iff. by rewrite (HPQ _ Hc), IH.
Qed.

(** A blank line has a single cell, and it trims to the empty string. *)
Lemma blank_line_cells line :
  Js.blank line = true -> Js.trim <$> Js.split "," line = [""].
Proof.
  intros H. rewrite split_no_sep.
  - simpl. by apply bool_decide_eq_true in H as ->.
  - eapply allChars_impl, blank_allChars, H.
    intros c Hc. case_bool_decide; [by subst|done].
Qed.

Lemma lowerChar_not_upper c : isUpper (Js.lowerChar c) = false.
Proof. by destruct c as [[] [] [] [] [] [] [] []]. Qed.

Lemma toLowerCase_no_upper s :
  allChars (fun c => negb (isUpper c)) (Js.toLowerCase s) = true.
Proof.
  induction s as [|c r IH]; simpl; [done|].
  by rewrite lowerChar_not_upper.
Qed.

End StringFacts.

(** ** The field mapping and one line of the loop *)

Section RowFacts.

Variable env : Env.

Lemma processLine_outcome headers line newRecords s :
  processLine env headers line newRecords s =
  match rowOutcome env headers line with
  | inl e => (s, inl e)
  | inr (Some r) => (countProcessed s, inr (newRecords ++ [r])%list)
  | inr None => (countSkipped s, inr newRecords)
  end.
Proof.
  unfold processLine, rowOutcome. destruct (Js.blank line); [done|].
  unfold bind, liftE. by destruct (convertToRecord _ _) as [e|[r|]].
Qed.

Lemma forEach_invariant {A B} (P : B -> Prop) (f : B -> A -> nat -> B) l :
  (forall b x i, x ∈ l -> P b -> P (f b x i)) ->
  forall i b, P b -> P (forEach f l i b).
Proof.
  induction l as [|x r IH]; simpl; intros Hf i b Hb; [done|].
  apply IH.
  - intros b' y j Hy. apply Hf. by right.
  - apply Hf; [by left|done].
Qed.

Lemma setProperty_lookup header value (data : gmap string string) k v :
  setProperty header value data !! k = Some v ->
  (k = header /\ v = value) \/ data !! k = Some v.
Proof.
  unfold setProperty. case_bool_decide; [by right|].
  destruct (decide (header = k)) as [->|Hne].
  - rewrite lookup_insert_eq. intros [= <-]. by left.
  - rewrite lookup_insert_ne; [|done]. by right.
Qed.

(** Every key of the field mapping is a header. *)
Lemma rowData_keys headers line k v :
  rowData headers line !! k = Some v -> k ∈ headers.
Proof.
  revert v. unfold rowData.
  apply (forEach_invariant
           (fun data : gmap string string => forall v, data !! k = Some v -> k ∈ headers)).
  - intros b x i Hx Hb v [[-> _]|Hv]%setProperty_lookup; [done|by eapply Hb].
  - intros v. by rewrite lookup_empty.
Qed.

(** Every value of the field mapping satisfies what the empty string and
    all the trimmed cells of the line satisfy. *)
Lemma rowData_values (P : string -> Prop) headers line k v :
  P "" ->
  Forall P (Js.trim <$> Js.split "," line) ->
  rowData headers line !! k = Some v -> P v.
Proof.
  intros Hempty Hcells. revert k v. unfold rowData.
  apply (forEach_invariant
           (fun data : gmap string string => forall k v, data !! k = Some v -> P v)).
  - intros b x i _ Hb k v [[_ ->]|Hv]%setProperty_lookup; [|by eapply Hb].
    destruct (_ !! i) as [cell|] eqn:Hi; simpl; [|done].
    destruct cell; [done|].
    eapply Forall_lookup_1 in Hcells; [exact Hcells|exact Hi].
  - intros k v. by rewrite lookup_empty.
Qed.

(** The values of a field mapping are already trimmed. *)
Lemma rowData_trimmed headers line k v :
  rowData headers line !! k = Some v -> Js.trim v = v.
Proof.
  apply (rowData_values (fun v => Js.trim v = v)); [done|].
  apply Forall_fmap, Forall_forall. intros cell _. apply trim_idemp.
Qed.

(** On a blank line every field is the empty string. *)
Lemma rowData_blank_line headers line k v :
  Js.blank line = true -> rowData headers line !! k = Some v -> v = "".
Proof.
  intros Hb. apply (rowData_values (fun v => v = "")); [done|].
  rewrite blank_line_cells; [|done]. by repeat constructor.
Qed.

Lemma companyNameBlank_line headers line :
  Js.blank line = true -> companyNameBlank (rowData headers line) = true.
Proof.
  intros Hb. unfold companyNameBlank.
  destruct (_ !! "company_name") as [cn|] eqn:Hcn; [|done].
  by rewrite (rowData_blank_line _ _ _ _ Hb Hcn).
Qed.

Lemma isRowEmpty_companyNameBlank (data : gmap string string) :
  isRowEmpty data = true -> companyNameBlank data = true.
Proof.
  intros H%bool_decide_eq_true. unfold companyNameBlank.
  destruct (data !! "company_name") as [cn|] eqn:Hcn; [|done].
  exact (H _ _ Hcn).
Qed.

Lemma convertToRecord_skip data :
  companyNameBlank data = true -> convertToRecord env data = inr None.
Proof.
  unfold companyNameBlank, convertToRecord. intros H.
  destruct (isRowEmpty data); [done|].
  destruct (data !! "company_name"); [|done]. by rewrite H.
Qed.

Lemma rowOutcome_skip headers line :
  Js.blank line = true \/ companyNameBlank (rowData headers line) = true ->
  rowOutcome env headers line = inr None.
Proof.
  unfold rowOutcome. intros [->|H]; [done|].
  destruct (Js.blank line); [done|]. by apply convertToRecord_skip.
Qed.

(** What [convertToRecord] returns when it returns a record. *)
Lemma convertToRecord_some data r :
  convertToRecord env data = inr (Some r) ->
  exists company_name images,
    data !! "company_name" = Some company_name /\
    Js.blank company_name = false /\
    imagesColumn env (data !! "images") = inr images /\
    r = {|
      CompanyRecord.id := generateId env;
      CompanyRecord.status := "ACTIVE";
      CompanyRecord.level := "PUBLIC";
      CompanyRecord.lastAccessed := default "" (head (Js.split "T" (nowISO env)));
      CompanyRecord.subject := Js.trim company_name;
      CompanyRecord.details := textColumn (data !! "description") (Js.trim company_name);
      CompanyRecord.requiredClearance := "PUBLIC";
      CompanyRecord.name := Js.trim company_name;
      CompanyRecord.address := textColumn (data !! "address") "";
      CompanyRecord.zipCode := textColumn (data !! "zipCode") "";
      CompanyRecord.city := textColumn (data !! "city") "";
      CompanyRecord.country := textColumn (data !! "country") "";
      CompanyRecord.logo :=
        textColumn (data !! "logo")
          "https://images.unsplash.com/photo-1516245834210-c4c142787335?auto=format&fit=crop&w=300";
      CompanyRecord.images := images;
      CompanyRecord.category := listColumn (data !! "category") [];
      CompanyRecord.tags := listColumn (data !! "tags") [];
      CompanyRecord.socialMedia := {|
        CompanyRecord.twitter := textColumn (data !! "twitter") "";
        CompanyRecord.linkedin := textColumn (data !! "linkedin") "" |};
      CompanyRecord.description := textColumn (data !! "description") "";
      CompanyRecord.sourceFound := "Company Website";
      CompanyRecord.ceo := textColumn (data !! "ceo") "";
      CompanyRecord.language := listColumn (data !! "language") ["ENGLISH"];
      CompanyRecord.taxId := textColumn (data !! "taxId") "";
      CompanyRecord.verificationStatus := ∅
    |}.
Proof.
  unfold convertToRecord. destruct (isRowEmpty data); [done|].
  destruct (data !! "company_name") as [cn|]; [|done].
  destruct (Js.blank cn) eqn:Hcn; [done|].
  destruct (imagesColumn env (data !! "images")) as [e|images] eqn:Himg; [done|].
  intros [= <-]. by exists cn, images.
Qed.

(** A non-blank [company_name] and an [images] cell that parses give a
    record. *)
Lemma convertToRecord_converts data company_name images :
  data !! "company_name" = Some company_name ->
  Js.blank company_name = false ->
  imagesColumn env (data !! "images") = inr images ->
  exists r, convertToRecord env data = inr (Some r).
Proof.
  intros Hcn Hnb Himg. unfold convertToRecord.
  destruct (isRowEmpty data) eqn:He.
  - apply isRowEmpty_companyNameBlank in He. unfold companyNameBlank in He.
    rewrite Hcn in He. congruence.
  - rewrite Hcn, Hnb, Himg. eauto.
Qed.

(** The only throw of [convertToRecord] is the [SyntaxError] of the
    [images] cell. *)
Lemma convertToRecord_throw data e :
  convertToRecord env data = inl e ->
  exists text, e = SyntaxError (syntaxErrorMessage env text).
Proof.
  unfold convertToRecord. destruct (isRowEmpty data); [done|].
  destruct (data !! "company_name") as [cn|]; [|done].
  destruct (Js.blank cn); [done|].
  destruct (imagesColumn env (data !! "images")) as [e'|images] eqn:Himg; [|done].
  intros [= <-]. unfold imagesColumn in Himg.
  destruct (Js.truthy _); [|done].
  destruct (Json.parse _); [done|]. injection Himg as <-. eauto.
Qed.

End RowFacts.

(** ** The loop and the run *)

Section RunFacts.

Variable env : Env.

Lemma processCSV_cases text s :
  processCSV env text s =
  match Js.split LF text with
  | [] => failed (started s) "lines[0] is undefined"
  | line0 :: rest =>
      if bool_decide (("company_name" : string) ∈ parseHeaders line0) then
        match processLines env (parseHeaders line0) rest [] (started s) with
        | (s', inr newRecords) => succeeded s' newRecords
        | (s', inl e) => failed s' (message e)
        end
      else failed (started s) missingColumn
  end.
Proof.
  unfold processCSV, tryBlock, bind at 1 2 3 4. simpl. fold LF.
  destruct (Js.split LF text) as [|line0 rest]; [done|].
  simpl drop.
  destruct (bool_decide _); simpl; [|done].
  unfold bind at 1. fold (started s).
  destruct (processLines _ _ _ _ _) as [s' [e|recs]]; [done|].
  unfold succeeded; simpl. f_equal. by rewrite <- !app_assoc.
Qed.

Lemma processLines_app headers lines1 lines2 newRecords s :
  processLines env headers (lines1 ++ lines2) newRecords s =
  match processLines env headers lines1 newRecords s with
  | (s1, inr newRecords1) => processLines env headers lines2 newRecords1 s1
  | (s1, inl e) => (s1, inl e)
  end.
Proof.
  revert newRecords s. induction lines1 as [|line rest IH]; intros nr s; [done|].
  simpl. unfold bind. destruct (processLine _ _ _ _ _) as [s1 [e|nr1]]; [done|].
  apply IH.
Qed.

(** The loop writes only the two counters; when it ends, every line was
    counted once, and the records appended are as many as [processedRows]
    grew, each the conversion of one of the lines. *)
Lemma processLines_result headers lines newRecords s s' res :
  processLines env headers lines newRecords s = (s', res) ->
  uploadStatus s' = uploadStatus s /\ errorMessage s' = errorMessage s /\
  effects s' = effects s /\
  match res with
  | inr out =>
      processedRows s' + skippedRows s'
      = processedRows s + skippedRows s + length lines /\
      exists new, out = (newRecords ++ new)%list /\
        processedRows s' = processedRows s + length new /\
        Forall (fun r => exists line, line ∈ lines /\
                  convertToRecord env (rowData headers line) = inr (Some r)) new
  | inl e => exists text, e = SyntaxError (syntaxErrorMessage env text)
  end.
Proof.
  revert newRecords s. induction lines as [|line rest IH]; intros nr s; simpl.
  - intros [= <- <-]. split_and!; try done.
    exists []. rewrite app_nil_r. split_and!; [done|simpl; lia|done].
  - assert (Hweak : forall new : list CompanyRecord.t,
      Forall (fun r => exists l, l ∈ rest /\
                convertToRecord env (rowData headers l) = inr (Some r)) new ->
      Forall (fun r => exists l, l ∈ (line :: rest) /\
                convertToRecord env (rowData headers l) = inr (Some r)) new).
    { intros new Hnew. eapply Forall_impl; [exact Hnew|].
      intros r (l & Hl & Hr). exists l. split; [by right|done]. }
    unfold bind. rewrite processLine_outcome. unfold rowOutcome.
    destruct (Js.blank line).
    + intros H. apply IH in H as (-> & -> & -> & H). split_and!; try done.
      destruct res as [e|out]; [done|]. destruct H as (Hc & new & -> & Hp & Hid).
      simpl in *. split; [lia|]. exists new. auto.
    + destruct (convertToRecord env _) as [e|[r|]] eqn:Hconv.
      * intros [= <- <-]. split_and!; try done. by eapply convertToRecord_throw.
      * intros H. apply IH in H as (-> & -> & -> & H). split_and!; try done.
        destruct res as [e|out]; [done|]. destruct H as (Hc & new & -> & Hp & Hid).
        simpl in *. split; [lia|]. exists (r :: new).
        rewrite <- app_assoc. split; [done|]. split; [simpl; lia|].
        constructor; [|auto]. exists line. split; [by left|done].
      * intros H. apply IH in H as (-> & -> & -> & H). split_and!; try done.
        destruct res as [e|out]; [done|]. destruct H as (Hc & new & -> & Hp & Hid).
        simpl in *. split; [lia|]. exists new. auto.
Qed.

(** One line that throws makes the loop throw. *)
Lemma processLines_throws headers lines line e newRecords s :
  line ∈ lines -> rowOutcome env headers line = inl e ->
  exists s' e', processLines env headers lines newRecords s = (s', inl e').
Proof.
  intros Hin Hout. revert newRecords s.
  induction Hin as [line rest|line other rest Hin IH]; intros nr s; simpl; unfold bind.
  - rewrite processLine_outcome, Hout. eauto.
  - rewrite processLine_outcome.
    destruct (rowOutcome env headers other) as [e'|[r|]]; eauto.
Qed.

(** A run that ends in [success]: its final state, and where the logged
    records come from. *)
Lemma processCSV_success text s :
  uploadStatus (processCSV env text s) = UploadStatus.success ->
  exists line0 rest newRecords skipped,
    Js.split LF text = line0 :: rest /\
    ("company_name" : string) ∈ parseHeaders line0 /\
    processLines env (parseHeaders line0) rest [] (started s)
    = ({| uploadStatus := UploadStatus.processing; errorMessage := errorMessage s;
          processedRows := length newRecords; skippedRows := skipped;
          effects := effects s ++ [PlaySound "diskRead"] |}, inr newRecords) /\
    processCSV env text s
    = {| uploadStatus := UploadStatus.success; errorMessage := errorMessage s;
         processedRows := length newRecords; skippedRows := skipped;
         effects := effects s ++ [PlaySound "diskRead";
                                  ConsoleLog "New records:" newRecords;
                                  PlaySound "login"; SetTimeoutOnClose 3000] |} /\
    length newRecords + skipped = length rest /\
    Forall (fun r => exists line, line ∈ rest /\
              convertToRecord env (rowData (parseHeaders line0) line) = inr (Some r))
           newRecords.
Proof.
  rewrite processCSV_cases.
  destruct (Js.split LF text) as [|line0 rest]; [done|].
  case_bool_decide as Hh; [|done].
  destruct (processLines _ _ _ _ _) as [s1 [e|out]] eqn:Hloop; [done|].
  intros _. pose proof (processLines_result _ _ _ _ _ _ Hloop) as
    (Hst & Hmsg & Heff & Hc & new & -> & Hp & Hconv).
  simpl in *. destruct s1 as [st msg p k eff]; simpl in *. subst.
  exists line0, rest, new, k. split_and!; try done.
  unfold succeeded; simpl. f_equal. by rewrite <- app_assoc.
Qed.

End RunFacts.

(** ** Sequential ids *)

(** [generateId] reads the last record of the store only. *)
Lemma generateId_last env r :
  last (getAllRecords env) = Some r ->
  CompanyRecord.id r ≠ "" ->
  generateId env
  = "CORP-" ++ Js.padStart 4 "0" (Js.toString (Js.add1 (idSuffix (CompanyRecord.id r)))).
Proof.
  intros Hlast Hid. unfold generateId, idSuffix. rewrite Hlast. simpl.
  by destruct (CompanyRecord.id r).
Qed.

(** C2, as stated, fails: in the store [CORP-0007; CORP-0003] the highest
    suffix is 7, yet the next id is [CORP-0004], one more than the suffix of
    the last record. *)
Lemma C2_counterexample :
  highestSuffix (getAllRecords (storeOf ["CORP-0007"; "CORP-0003"])) = Some 7%Z /\
  generateId (storeOf ["CORP-0007"; "CORP-0003"]) = "CORP-0004" /\
  generateId (storeOf ["CORP-0007"; "CORP-0003"]) ≠ "CORP-0008".
Proof. split_and!; [reflexivity|reflexivity|discriminate]. Qed.

(** C2, amended: when the last record of the store, in store order, has an
    id whose suffix reads as 7 (such as [CORP-0007]), the next id is
    [CORP-0008]; on the empty store the first id is [CORP-0001]. *)
Theorem C2_next_id_from_last_record env :
  (forall r, last (getAllRecords env) = Some r ->
             idSuffix (CompanyRecord.id r) = Js.Int 7 ->
             generateId env = "CORP-0008") /\
  (getAllRecords env = [] -> generateId env = "CORP-0001").
Proof.
  split.
  - intros r Hlast H7.
    destruct (decide (CompanyRecord.id r = "")) as [He|Hne].
    + rewrite He in H7. discriminate.
    + rewrite (generateId_last _ _ Hlast Hne), H7. reflexivity.
  - intros Hnil. unfold generateId. rewrite Hnil. reflexivity.
Qed.

Lemma C2_next_id_witness :
  generateId (storeOf ["CORP-0003"; "CORP-0007"]) = "CORP-0008" /\
  generateId (storeOf []) = "CORP-0001".
Proof.
  split.
  - apply (proj1 (C2_next_id_from_last_record (storeOf ["CORP-0003"; "CORP-0007"]))
             (recordWithId "CORP-0007")); reflexivity.
  - apply (proj2 (C2_next_id_from_last_record (storeOf []))). reflexivity.
Defined.

(** ** Defaults and list columns of [convertToRecord] *)

Lemma textColumn_default cell dflt :
  cell = None \/ (exists v, cell = Some v /\ Js.blank v = true) ->
  textColumn cell dflt = dflt.
Proof.
  intros [->|(v & -> & Hb)]; [done|].
  apply bool_decide_eq_true in Hb. unfold textColumn. simpl. by rewrite Hb.
Qed.

Lemma listColumn_default cell dflt :
  cell = None \/ (exists v, cell = Some v /\ Js.blank v = true) ->
  listColumn cell dflt = dflt.
Proof.
  intros [->|(v & -> & Hb)]; [done|]. simpl. by rewrite Hb.
Qed.

(** C3, as stated, fails: a row with no [description] gets the empty
    [description], not its name. *)
Lemma C3_counterexample :
  exists r,
    convertToRecord (storeOf []) (object [("company_name", "Acme")]) = inr (Some r) /\
    object [("company_name", "Acme")] !! "description" = None /\
    CompanyRecord.name r = "Acme" /\
    CompanyRecord.description r = "" /\
    CompanyRecord.description r ≠ CompanyRecord.name r.
Proof. eexists. split_and!; [vm_compute; reflexivity|reflexivity..|discriminate]. Qed.

(** C3, amended: for a converted row whose [description] field is absent
    or blank, [details] equals the record's [name] (the trimmed
    [company_name] value) and [description] is the empty string. *)
Theorem C3_description_defaults env data r :
  convertToRecord env data = inr (Some r) ->
  data !! "description" = None \/
    (exists v, data !! "description" = Some v /\ Js.blank v = true) ->
  CompanyRecord.details r = CompanyRecord.name r /\
  CompanyRecord.description r = "" /\
  exists company_name,
    data !! "company_name" = Some company_name /\
    CompanyRecord.name r = Js.trim company_name.
Proof.
  intros (cn & images & Hcn & _ & _ & ->)%convertToRecord_some Hd. simpl.
  rewrite !(textColumn_default _ _ Hd). eauto.
Qed.

Lemma C3_description_defaults_witness :
  exists r,
    convertToRecord (storeOf []) (object [("company_name", " Acme "); ("description", "  ")])
    = inr (Some r) /\
    CompanyRecord.details r = CompanyRecord.name r /\
    CompanyRecord.description r = "".
Proof.
  destruct (convertToRecord (storeOf [])
              (object [("company_name", " Acme "); ("description", "  ")]))
    as [e|[r|]] eqn:H; [vm_compute in H; discriminate| |vm_compute in H; discriminate].
  exists r. split; [reflexivity|].
  destruct (C3_description_defaults _ _ _ H) as (Hd & He & _).
  - right. exists "  ". split; reflexivity.
  - split; assumption.
Defined.

(** What [convertToRecord] does with the list columns of a field mapping
    handed to it: [category], [tags] and [language] are split on commas,
    each element trimmed and upper-cased, so that the value ["a, b,c"] in
    [category] would give [["A"; "B"; "C"]]; a missing or blank [language]
    gives [["ENGLISH"]].  The loop of [processCSV] never hands it a value
    with a comma: see [rowData_no_comma]. *)
Lemma convertToRecord_list_columns env data r :
  convertToRecord env data = inr (Some r) ->
  (forall v, data !! "category" = Some v -> Js.blank v = false ->
     CompanyRecord.category r
     = (fun c => Js.toUpperCase (Js.trim c)) <$> Js.split "," v) /\
  (forall v, data !! "tags" = Some v -> Js.blank v = false ->
     CompanyRecord.tags r
     = (fun c => Js.toUpperCase (Js.trim c)) <$> Js.split "," v) /\
  (forall v, data !! "language" = Some v -> Js.blank v = false ->
     CompanyRecord.language r
     = (fun c => Js.toUpperCase (Js.trim c)) <$> Js.split "," v) /\
  (data !! "category" = Some "a, b,c" -> CompanyRecord.category r = ["A"; "B"; "C"]) /\
  (data !! "language" = None \/
     (exists v, data !! "language" = Some v /\ Js.blank v = true) ->
   CompanyRecord.language r = ["ENGLISH"]).
Proof.
  intros (cn & images & _ & _ & _ & ->)%convertToRecord_some. simpl.
  split_and!.
  - intros v -> Hv. simpl. by rewrite Hv.
  - intros v -> Hv. simpl. by rewrite Hv.
  - intros v -> Hv. simpl. by rewrite Hv.
  - by intros ->.
  - apply listColumn_default.
Qed.

(** ** Rows: skipped or converted *)

(** C5: a line that is empty or only white space, a row whose every field
    is blank, and a row whose [company_name] field is blank each leave the
    record list as it was and add exactly one to the skipped counter. *)
Theorem C5_skipped_rows env headers line newRecords s :
  Js.blank line = true \/
  isRowEmpty (rowData headers line) = true \/
  companyNameBlank (rowData headers line) = true ->
  processLine env headers line newRecords s = (countSkipped s, inr newRecords).
Proof.
  intros H. rewrite processLine_outcome, rowOutcome_skip; [done|].
  destruct H as [H|[H|H]]; auto using isRowEmpty_companyNameBlank.
Qed.

Lemma C5_skipped_rows_witness :
  processLine (storeOf []) ["company_name"; "description"] "   " [] idleState
  = (countSkipped idleState, inr []) /\
  processLine (storeOf []) ["company_name"; "description"] " , ," [] idleState
  = (countSkipped idleState, inr []) /\
  processLine (storeOf []) ["company_name"; "description"] ",Widgets" [] idleState
  = (countSkipped idleState, inr []).
Proof.
  split_and!; apply C5_skipped_rows.
  - left. reflexivity.
  - right. left. vm_compute. reflexivity.
  - right. right. vm_compute. reflexivity.
Defined.

(** C6: a row whose [company_name] field is not blank, and whose [images]
    cell parses, appends exactly one record and adds exactly one to the
    processed counter; the record's [name] and [subject] are the trimmed
    [company_name] value. *)
Theorem C6_converted_row env headers line newRecords s company_name images :
  rowData headers line !! "company_name" = Some company_name ->
  Js.blank company_name = false ->
  imagesColumn env (rowData headers line !! "images") = inr images ->
  exists r,
    processLine env headers line newRecords s
    = (countProcessed s, inr (newRecords ++ [r])%list) /\
    CompanyRecord.name r = Js.trim company_name /\
    CompanyRecord.subject r = Js.trim company_name /\
    Js.trim company_name = company_name.
Proof.
  intros Hcn Hnb Himg.
  destruct (convertToRecord_converts env _ _ _ Hcn Hnb Himg) as [r Hr].
  exists r. rewrite processLine_outcome. unfold rowOutcome.
  destruct (Js.blank line) eqn:Hline.
  - pose proof (rowData_blank_line headers line _ _ Hline Hcn) as ->. done.
  - rewrite Hr. split; [done|].
    apply convertToRecord_some in Hr as (cn & im & Hcn' & _ & _ & ->).
    simpl. rewrite Hcn in Hcn'. injection Hcn' as <-.
    split_and!; [done|done|]. by eapply rowData_trimmed.
Qed.

Lemma C6_converted_row_witness :
  exists r,
    processLine (storeOf []) ["company_name"; "description"] "  Acme ,Widgets" [] idleState
    = (countProcessed idleState, inr [r]) /\
    CompanyRecord.name r = "Acme" /\
    CompanyRecord.subject r = "Acme".
Proof.
  destruct (C6_converted_row (storeOf []) ["company_name"; "description"]
              "  Acme ,Widgets" [] idleState "Acme" (Json.Array []))
    as (r & Hrun & Hname & Hsubject & _).
  - vm_compute. reflexivity.
  - reflexivity.
  - vm_compute. reflexivity.
  - exists r. split_and!; assumption.
Defined.

(** ** The run as a whole *)

(** C4: when the header line, lower-cased, split on commas and trimmed,
    has no [company_name], the run ends in the error state with the format
    message; both counters are zero and nothing is logged: the only calls
    are the two sounds. *)
Theorem C4_missing_company_name env text s :
  ("company_name" : string) ∉ parseHeaders (default "" (head (Js.split LF text))) ->
  let s' := processCSV env text s in
  uploadStatus s' = UploadStatus.error /\
  errorMessage s' = missingColumn /\
  processedRows s' = 0 /\
  skippedRows s' = 0 /\
  effects s' = (effects s ++ [PlaySound "diskRead"; PlaySound "error"])%list.
Proof.
  intros Hh s'. subst s'. rewrite processCSV_cases.
  pose proof (split_nonempty LF text).
  destruct (Js.split LF text) as [|line0 rest]; [done|]. simpl in Hh.
  rewrite bool_decide_false; [|done]. simpl.
  split_and!; try done. by rewrite <- app_assoc.
Qed.

Lemma C4_missing_company_name_witness :
  uploadStatus (processCSV (storeOf []) (csv ["name,description"; "Acme,Widgets"]) idleState)
  = UploadStatus.error /\
  effects (processCSV (storeOf []) (csv ["name,description"; "Acme,Widgets"]) idleState)
  = [PlaySound "diskRead"; PlaySound "error"].
Proof.
  destruct (C4_missing_company_name (storeOf [])
              (csv ["name,description"; "Acme,Widgets"]) idleState)
    as (Hst & _ & _ & _ & Heff).
  - compute_done.
  - split; assumption.
Defined.

(** C10: in a run that ends in success every line after the header added
    one to exactly one of the two counters, so the counters add up to the
    number of those lines; the same file with one more line feed at its end
    also succeeds, with the same processed count and one more skipped
    row. *)
Theorem C10_every_line_counted env text s :
  uploadStatus (processCSV env text s) = UploadStatus.success ->
  (forall headers line newRecords s0 s1 out,
     processLine env headers line newRecords s0 = (s1, inr out) ->
     (s1 = countProcessed s0 /\ exists r, out = (newRecords ++ [r])%list) \/
     (s1 = countSkipped s0 /\ out = newRecords)) /\
  processedRows (processCSV env text s) + skippedRows (processCSV env text s)
  = length (Js.split LF text) - 1 /\
  let s2 := processCSV env (text ++ String LF "") s in
  uploadStatus s2 = UploadStatus.success /\
  processedRows s2 = processedRows (processCSV env text s) /\
  skippedRows s2 = S (skippedRows (processCSV env text s)).
Proof.
  intros (line0 & rest & recs & k & Hsplit & Hh & Hloop & -> & Hc & _)%processCSV_success.
  split.
  { intros headers line nr s0 s1 out. rewrite processLine_outcome.
    destruct (rowOutcome env headers line) as [e|[r|]]; intros [= <- <-]; eauto. }
  simpl. rewrite Hsplit. simpl. split; [lia|].
  rewrite processCSV_cases, split_snoc_sep, Hsplit. simpl.
  rewrite bool_decide_true; [|done].
  rewrite processLines_app, Hloop. simpl. done.
Qed.

Lemma C10_every_line_counted_witness :
  processedRows (processCSV (storeOf []) (csv ["company_name"; "Acme"; ""]) idleState) = 1 /\
  skippedRows (processCSV (storeOf []) (csv ["company_name"; "Acme"; ""]) idleState) = 1 /\
  skippedRows (processCSV (storeOf []) (csv ["company_name"; "Acme"]) idleState) = 0.
Proof.
  destruct (C10_every_line_counted (storeOf []) (csv ["company_name"; "Acme"]) idleState)
    as (_ & _ & _ & Hp & Hk).
  - vm_compute. reflexivity.
  - split_and!.
    + exact Hp.
    + exact Hk.
    + vm_compute. reflexivity.
Defined.

(** The scenario of the specification: one converted row, one blank row. *)
Example run_acme :
  processCSV (storeOf []) (csv ["company_name,description"; "Acme,Widgets"; ",,"]) idleState
  = {| uploadStatus := UploadStatus.success; errorMessage := "";
       processedRows := 1; skippedRows := 1;
       effects := [PlaySound "diskRead";
                   ConsoleLog "New records:"
                     [{| CompanyRecord.id := "CORP-0001";
                         CompanyRecord.status := "ACTIVE";
                         CompanyRecord.level := "PUBLIC";
                         CompanyRecord.lastAccessed := "2024-05-06";
                         CompanyRecord.subject := "Acme";
                         CompanyRecord.details := "Widgets";
                         CompanyRecord.requiredClearance := "PUBLIC";
                         CompanyRecord.name := "Acme";
                         CompanyRecord.address := "";
                         CompanyRecord.zipCode := "";
                         CompanyRecord.city := "";
                         CompanyRecord.country := "";
                         CompanyRecord.logo :=
                           "https://images.unsplash.com/photo-1516245834210-c4c142787335?auto=format&fit=crop&w=300";
                         CompanyRecord.images := Json.Array [];
                         CompanyRecord.category := [];
                         CompanyRecord.tags := [];
                         CompanyRecord.socialMedia :=
                           {| CompanyRecord.twitter := ""; CompanyRecord.linkedin := "" |};
                         CompanyRecord.description := "Widgets";
                         CompanyRecord.sourceFound := "Company Website";
                         CompanyRecord.ceo := "";
                         CompanyRecord.language := ["ENGLISH"];
                         CompanyRecord.taxId := "";
                         CompanyRecord.verificationStatus := ∅ |}];
                   PlaySound "login"; SetTimeoutOnClose 3000] |}.
Proof. vm_compute. reflexivity. Qed.

(** ** A malformed [images] cell *)

(** C8, as stated, fails: a row whose [images] cell is not valid JSON but
    whose [company_name] is blank is skipped before the cell is parsed, and
    the run succeeds. *)
Lemma C8_counterexample :
  Json.parse "{not json" = None /\
  rowData (parseHeaders "company_name,images") ",{not json" !! "images"
  = Some "{not json" /\
  processCSV (storeOf []) (csv ["company_name,images"; ",{not json"]) idleState
  = {| uploadStatus := UploadStatus.success; errorMessage := "";
       processedRows := 0; skippedRows := 1;
       effects := [PlaySound "diskRead"; ConsoleLog "New records:" [];
                   PlaySound "login"; SetTimeoutOnClose 3000] |}.
Proof. split_and!; vm_compute; reflexivity. Qed.

(** C8, amended: when the header has [company_name] and some row with a
    non-blank [company_name] has a non-empty [images] cell that is not
    valid JSON, the run as a whole ends in the error state with the message
    of a [SyntaxError], and no record list is logged: the only calls are
    the two sounds. *)
Theorem C8_malformed_images_aborts env text s line0 rest line company_name cell :
  Js.split LF text = line0 :: rest ->
  ("company_name" : string) ∈ parseHeaders line0 ->
  line ∈ rest ->
  rowData (parseHeaders line0) line !! "company_name" = Some company_name ->
  Js.blank company_name = false ->
  rowData (parseHeaders line0) line !! "images" = Some cell ->
  cell ≠ "" ->
  Json.parse cell = None ->
  let s' := processCSV env text s in
  uploadStatus s' = UploadStatus.error /\
  (exists rejected, errorMessage s' = syntaxErrorMessage env rejected) /\
  effects s' = (effects s ++ [PlaySound "diskRead"; PlaySound "error"])%list.
Proof.
  intros Hsplit Hh Hin Hcn Hnb Himg Hne Hparse s'. subst s'.
  assert (Hthrow : exists e, rowOutcome env (parseHeaders line0) line = inl e).
  { unfold rowOutcome. destruct (Js.blank line) eqn:Hline.
    - pose proof (rowData_blank_line _ _ _ _ Hline Hcn) as ->. done.
    - unfold convertToRecord. destruct (isRowEmpty _) eqn:He.
      + apply isRowEmpty_companyNameBlank in He. unfold companyNameBlank in He.
        rewrite Hcn in He. congruence.
      + rewrite Hcn, Hnb, Himg. unfold imagesColumn. simpl.
        rewrite (rowData_trimmed _ _ _ _ Himg).
        destruct cell as [|c cell']; [done|]. simpl. rewrite Hparse. eauto. }
  destruct Hthrow as [e He].
  destruct (processLines_throws env _ _ _ _ [] (started s) Hin He) as (s1 & e1 & Hloop).
  rewrite processCSV_cases, Hsplit, bool_decide_true, Hloop; [|done].
  apply processLines_result in Hloop as (_ & _ & Heff & rejected & ->).
  simpl. rewrite Heff. simpl. split_and!; [done|eauto|by rewrite <- app_assoc].
Qed.

Lemma C8_malformed_images_aborts_witness :
  uploadStatus
    (processCSV (storeOf [])
       (csv ["company_name,images"; "Acme,[]"; "Bolt,{not json"; "Core,[]"]) idleState)
  = UploadStatus.error /\
  effects
    (processCSV (storeOf [])
       (csv ["company_name,images"; "Acme,[]"; "Bolt,{not json"; "Core,[]"]) idleState)
  = [PlaySound "diskRead"; PlaySound "error"].
Proof.
  destruct (C8_malformed_images_aborts (storeOf [])
              (csv ["company_name,images"; "Acme,[]"; "Bolt,{not json"; "Core,[]"])
              idleState "company_name,images"
              ["Acme,[]"; "Bolt,{not json"; "Core,[]"] "Bolt,{not json" "Bolt" "{not json")
    as (Hst & _ & Heff).
  - reflexivity.
  - compute_done.
  - compute_done.
  - vm_compute. reflexivity.
  - reflexivity.
  - vm_compute. reflexivity.
  - discriminate.
  - reflexivity.
  - split; assumption.
Defined.

(** ** Ids within one run *)

(** In a successful run every logged record carries the same id: the one
    [generateId] gives for the store, which the loop never extends. *)
Lemma processCSV_ids_constant env text s :
  uploadStatus (processCSV env text s) = UploadStatus.success ->
  exists newRecords,
    ConsoleLog "New records:" newRecords ∈ effects (processCSV env text s) /\
    length newRecords = processedRows (processCSV env text s) /\
    Forall (fun r => CompanyRecord.id r = generateId env) newRecords.
Proof.
  intros (line0 & rest & recs & k & _ & _ & _ & -> & _ & Hconv)%processCSV_success.
  exists recs. simpl. split_and!; [|done|].
  - apply elem_of_app. right. by right; left.
  - eapply Forall_impl; [exact Hconv|]. simpl.
    by intros r (line & _ & (? & ? & _ & _ & _ & ->)%convertToRecord_some).
Qed.

(** C1, on the code: a run that converts two rows gives both records the
    id [CORP-0001], so the ids of one run are neither pairwise unique nor
    increasing. *)
Theorem C1_ids_repeat_within_run :
  exists r1 r2 others,
    effects (processCSV (storeOf []) (csv ["company_name"; "Acme"; "Bolt"]) idleState)
    = PlaySound "diskRead" :: ConsoleLog "New records:" [r1; r2] :: others /\
    CompanyRecord.name r1 = "Acme" /\
    CompanyRecord.name r2 = "Bolt" /\
    CompanyRecord.id r1 = "CORP-0001" /\
    CompanyRecord.id r2 = "CORP-0001".
Proof. do 3 eexists. split_and!; [vm_compute; reflexivity|reflexivity..]. Qed.

(** ** Columns with capital letters *)

(** No header has a capital letter, so no field mapping has the keys
    [zipCode] or [taxId] that [convertToRecord] reads. *)
Lemma parseHeaders_no_upper line0 header :
  header ∈ parseHeaders line0 ->
  allChars (fun c => negb (isUpper c)) header = true.
Proof.
  unfold parseHeaders. intros (piece & -> & Hin)%list_elem_of_fmap.
  apply trim_allChars.
  pose proof (split_allChars _ "," _ (toLowerCase_no_upper line0)) as Hall.
  rewrite Forall_forall in Hall. by apply Hall.
Qed.

Lemma rowData_no_capital_key line0 line key :
  allChars (fun c => negb (isUpper c)) key = false ->
  rowData (parseHeaders line0) line !! key = None.
Proof.
  intros Hkey. destruct (_ !! key) as [v|] eqn:Hv; [|done].
  apply rowData_keys, parseHeaders_no_upper in Hv. congruence.
Qed.

(** In a successful run every logged record has an empty [zipCode] and an
    empty [taxId], whatever the file holds. *)
Lemma processCSV_zipCode_taxId_empty env text s :
  uploadStatus (processCSV env text s) = UploadStatus.success ->
  exists newRecords,
    ConsoleLog "New records:" newRecords ∈ effects (processCSV env text s) /\
    length newRecords = processedRows (processCSV env text s) /\
    Forall (fun r => CompanyRecord.zipCode r = "" /\ CompanyRecord.taxId r = "")
           newRecords.
Proof.
  intros (line0 & rest & recs & k & _ & _ & _ & -> & _ & Hconv)%processCSV_success.
  exists recs. simpl. split_and!; [|done|].
  - apply elem_of_app. right. by right; left.
  - eapply Forall_impl; [exact Hconv|]. simpl.
    intros r (line & _ & (? & ? & _ & _ & _ & ->)%convertToRecord_some). simpl.
    by rewrite !rowData_no_capital_key.
Qed.

(** The columns whose names have no capital letter are copied: the text
    fields without a placeholder equal the cell of the field mapping, which
    is the trimmed cell of the line, or the empty string when the column is
    missing. *)
Lemma convertToRecord_lowercase_columns env headers line r :
  convertToRecord env (rowData headers line) = inr (Some r) ->
  let data := rowData headers line in
  CompanyRecord.address r = default "" (data !! "address") /\
  CompanyRecord.city r = default "" (data !! "city") /\
  CompanyRecord.country r = default "" (data !! "country") /\
  CompanyRecord.ceo r = default "" (data !! "ceo") /\
  CompanyRecord.description r = default "" (data !! "description") /\
  CompanyRecord.twitter (CompanyRecord.socialMedia r) = default "" (data !! "twitter") /\
  CompanyRecord.linkedin (CompanyRecord.socialMedia r) = default "" (data !! "linkedin").
Proof.
  intros (cn & images & _ & _ & _ & ->)%convertToRecord_some data. simpl.
  assert (Hcol : forall k, textColumn (data !! k) "" = default "" (data !! k)).
  { intros k. unfold textColumn. destruct (data !! k) as [v|] eqn:Hv; [|done].
    simpl. rewrite (rowData_trimmed _ _ _ _ Hv). by destruct v. }
  by rewrite !Hcol.
Qed.

(** C9, on the code: with the header [company_name,zipCode,taxId] and the
    row [Acme, 12345 ,X1] the cells reach the field mapping under the keys
    [zipcode] and [taxid], and the record's [zipCode] and [taxId] are
    empty. *)
Theorem C9_zipCode_taxId_lost :
  rowData (parseHeaders "company_name,zipCode,taxId") "Acme, 12345 ,X1"
  = object [("company_name", "Acme"); ("zipcode", "12345"); ("taxid", "X1")] /\
  exists r others,
    effects (processCSV (storeOf [])
               (csv ["company_name,zipCode,taxId"; "Acme, 12345 ,X1"]) idleState)
    = PlaySound "diskRead" :: ConsoleLog "New records:" [r] :: others /\
    CompanyRecord.name r = "Acme" /\
    CompanyRecord.zipCode r = "" /\
    CompanyRecord.taxId r = "".
Proof.
  split; [vm_compute; reflexivity|].
  do 2 eexists. split_and!; [vm_compute; reflexivity|reflexivity..].
Qed.

(** * Further properties of the importer *)

(** ** The loop as a function of the lines *)

Section LoopFacts.

Variable env : Env.
Variable headers : list string.

Lemma advance_0 s : advance 0 0 s = s.
Proof. destruct s. unfold advance. simpl. by rewrite !Nat.add_0_r. Qed.

Lemma countProcessed_advance dp dk s :
  advance dp dk (countProcessed s) = advance (S dp) dk s.
Proof. unfold advance, countProcessed. simpl. by rewrite Nat.add_succ_r. Qed.

Lemma countSkipped_advance dp dk s :
  advance dp dk (countSkipped s) = advance dp (S dk) s.
Proof. unfold advance, countSkipped. simpl. by rewrite Nat.add_succ_r. Qed.

Lemma omap_length_le {A B} (f : A -> option B) (l : list A) :
  length (omap f l) <= length l.
Proof.
  induction l as [|x l IH]; csimpl; [lia|]. destruct (f x); simpl; lia.
Qed.

(** While no line throws, the loop appends the records of the lines in
    their order and counts every other line as skipped. *)
Lemma processLines_no_throw lines newRecords s :
  Forall (fun line => rowThrows env headers line = false) lines ->
  processLines env headers lines newRecords s
  = (advance (length (omap (recordOf env headers) lines))
             (length lines - length (omap (recordOf env headers) lines)) s,
     inr (newRecords ++ omap (recordOf env headers) lines)%list).
Proof.
  intros Hall. revert newRecords s.
  induction Hall as [|line rest Hline _ IH]; intros nr s.
  - simpl. by rewrite advance_0, app_nil_r.
  - pose proof (omap_length_le (recordOf env headers) rest) as Hle.
    change (processLines env headers (line :: rest) nr s)
      with (bind (processLine env headers line nr)
                 (fun nr' => processLines env headers rest nr') s).
    unfold bind. rewrite processLine_outcome.
    unfold rowThrows in Hline.
    destruct (rowOutcome env headers line) as [e|[r|]] eqn:Hl; [done| |].
    + assert (recordOf env headers line = Some r) as Hr
        by (unfold recordOf; by rewrite Hl).
      csimpl. rewrite Hr. simpl.
      by rewrite IH, countProcessed_advance, <- app_assoc.
    + assert (recordOf env headers line = None) as Hr
        by (unfold recordOf; by rewrite Hl).
      csimpl. rewrite Hr.
      rewrite IH, countSkipped_advance. do 2 f_equal. lia.
Qed.

(** The first line that throws ends the loop: the counters stand at the
    lines before it, and its exception is the one thrown. *)
Lemma processLines_first_throw before line after e newRecords s :
  Forall (fun l => rowThrows env headers l = false) before ->
  rowOutcome env headers line = inl e ->
  processLines env headers (before ++ line :: after) newRecords s
  = (advance (length (omap (recordOf env headers) before))
             (length before - length (omap (recordOf env headers) before)) s,
     inl e).
Proof.
  intros Hbefore Hline.
  rewrite processLines_app, processLines_no_throw; [|done].
  simpl. unfold bind. by rewrite processLine_outcome, Hline.
Qed.

(** Either no line throws, or there is a first one that does. *)
Lemma first_throw lines :
  Forall (fun l => rowThrows env headers l = false) lines \/
  exists before line after e,
    lines = (before ++ line :: after)%list /\
    Forall (fun l => rowThrows env headers l = false) before /\
    rowOutcome env headers line = inl e.
Proof.
  induction lines as [|l rest IH]; [by left|].
  destruct (rowOutcome env headers l) as [e|o] eqn:Hl.
  - right. exists [], l, rest, e. by split_and!.
  - assert (rowThrows env headers l = false) as Hno by (unfold rowThrows; by rewrite Hl).
    destruct IH as [IH|(before & line & after & e & -> & Hb & He)].
    + left. by constructor.
    + right. exists (l :: before), line, after, e. split_and!; [done| |done].
      by constructor.
Qed.

End LoopFacts.

(** ** The run as a function of the file *)

(** A line throws exactly when its row is converted and its [images] cell
    is malformed; the store and the date play no part. *)
Lemma rowThrows_malformedImages env headers line :
  rowThrows env headers line = malformedImages headers line.
Proof.
  unfold rowThrows, rowOutcome, malformedImages.
  destruct (Js.blank line) eqn:Hline.
  - destruct (_ !! "company_name") as [cn|] eqn:Hcn; [|done].
    rewrite (rowData_blank_line _ _ _ _ Hline Hcn).
    by destruct (_ !! "images").
  - unfold convertToRecord. destruct (isRowEmpty _) eqn:He.
    + apply isRowEmpty_companyNameBlank in He. unfold companyNameBlank in He.
      destruct (_ !! "company_name") as [cn|]; [|done]. rewrite He.
      by destruct (_ !! "images").
    + destruct (_ !! "company_name") as [cn|]; [|done].
      destruct (Js.blank cn); [by destruct (_ !! "images")|].
      destruct (_ !! "images") as [cell|] eqn:Hcell; [|done].
      unfold imagesColumn. simpl.
      rewrite (rowData_trimmed _ _ _ _ Hcell).
      destruct cell as [|c cell']; [done|]. simpl.
      destruct (Json.parse _) as [v|].
      * rewrite bool_decide_true; [done|by eexists].
      * rewrite bool_decide_false; [done|]. by intros [? ?].
Qed.

Lemma rowOutcome_malformed env headers line :
  malformedImages headers line = true ->
  rowOutcome env headers line
  = inl (SyntaxError (syntaxErrorMessage env
                        (default "" (rowData headers line !! "images")))).
Proof.
  intros Hm. pose proof Hm as Hthrow.
  rewrite <- (rowThrows_malformedImages env) in Hthrow.
  unfold malformedImages in Hm. unfold rowThrows in Hthrow.
  destruct (rowOutcome env headers line) as [e|o] eqn:Hout; [|done].
  unfold rowOutcome in Hout. destruct (Js.blank line); [done|].
  unfold convertToRecord in Hout. destruct (isRowEmpty _); [done|].
  destruct (_ !! "company_name") as [cn|]; [|done].
  destruct (Js.blank cn); [done|].
  destruct (_ !! "images") as [cell|] eqn:Hcell; [|done].
  unfold imagesColumn in Hout. simpl in *.
  rewrite (rowData_trimmed _ _ _ _ Hcell) in Hout.
  destruct cell as [|c cell']; [done|]. simpl in *.
  destruct (Json.parse _); [done|]. by injection Hout as <-.
Qed.

Lemma no_throw_malformed env headers lines :
  Forall (fun l => malformedImages headers l = false) lines ->
  Forall (fun l => rowThrows env headers l = false) lines.
Proof.
  intros H. eapply Forall_impl; [exact H|].
  intros l Hl. simpl in Hl. by rewrite (rowThrows_malformedImages env).
Qed.

(** The three ways a run can end. *)
Lemma processCSV_trichotomy text :
  exists line0 rest,
    Js.split LF text = line0 :: rest /\
    (("company_name" : string) ∉ parseHeaders line0 \/
     (("company_name" : string) ∈ parseHeaders line0 /\
      Forall (fun l => malformedImages (parseHeaders line0) l = false) rest) \/
     (("company_name" : string) ∈ parseHeaders line0 /\
      exists before line after,
        rest = (before ++ line :: after)%list /\
        Forall (fun l => malformedImages (parseHeaders line0) l = false) before /\
        malformedImages (parseHeaders line0) line = true)).
Proof.
  pose proof (split_nonempty LF text) as Hne.
  destruct (Js.split LF text) as [|line0 rest]; [done|].
  exists line0, rest. split; [done|].
  destruct (decide (("company_name" : string) ∈ parseHeaders line0)) as [Hh|Hh]; [|by left].
  right.
  destruct (first_throw (storeOf []) (parseHeaders line0) rest)
    as [Hok|(before & line & after & e & -> & Hb & He)].
  - left. split; [done|]. eapply Forall_impl; [exact Hok|].
    intros l Hl. simpl in Hl. by rewrite <- (rowThrows_malformedImages (storeOf [])).
  - right. split; [done|]. exists before, line, after. split_and!; [done| |].
    + eapply Forall_impl; [exact Hb|].
      intros l Hl. simpl in Hl. by rewrite <- (rowThrows_malformedImages (storeOf [])).
    + rewrite <- (rowThrows_malformedImages (storeOf [])). unfold rowThrows. by rewrite He.
Qed.

Lemma processCSV_ok env text s line0 rest :
  Js.split LF text = line0 :: rest ->
  ("company_name" : string) ∈ parseHeaders line0 ->
  Forall (fun l => malformedImages (parseHeaders line0) l = false) rest ->
  processCSV env text s
  = succeeded
      (advance (length (omap (recordOf env (parseHeaders line0)) rest))
               (length rest - length (omap (recordOf env (parseHeaders line0)) rest))
               (started s))
      (omap (recordOf env (parseHeaders line0)) rest).
Proof.
  intros Hsplit Hh Hok.
  rewrite processCSV_cases, Hsplit, bool_decide_true; [|done].
  by rewrite processLines_no_throw; [|by apply no_throw_malformed].
Qed.

Lemma processCSV_aborted env text s line0 before line after :
  Js.split LF text = line0 :: (before ++ line :: after)%list ->
  ("company_name" : string) ∈ parseHeaders line0 ->
  Forall (fun l => malformedImages (parseHeaders line0) l = false) before ->
  malformedImages (parseHeaders line0) line = true ->
  processCSV env text s
  = failed
      (advance (length (omap (recordOf env (parseHeaders line0)) before))
               (length before - length (omap (recordOf env (parseHeaders line0)) before))
               (started s))
      (syntaxErrorMessage env
         (default "" (rowData (parseHeaders line0) line !! "images"))).
Proof.
  intros Hsplit Hh Hok Hbad.
  rewrite processCSV_cases, Hsplit, bool_decide_true; [|done].
  by rewrite (processLines_first_throw env _ before line after _ [] (started s)
             (no_throw_malformed _ _ _ Hok) (rowOutcome_malformed _ _ _ Hbad)).
Qed.

Lemma processCSV_no_column env text s line0 rest :
  Js.split LF text = line0 :: rest ->
  ("company_name" : string) ∉ parseHeaders line0 ->
  processCSV env text s = failed (started s) missingColumn.
Proof.
  intros Hsplit Hh. by rewrite processCSV_cases, Hsplit, bool_decide_false.
Qed.

(** X1: a file whose header has [company_name] and in which no converted
    row has a malformed [images] cell ends in success: the records logged
    are the conversions of the lines in file order, [processedRows] is
    their number and [skippedRows] counts the other lines. *)
Theorem processCSV_output env text s line0 rest :
  Js.split LF text = line0 :: rest ->
  ("company_name" : string) ∈ parseHeaders line0 ->
  Forall (fun l => malformedImages (parseHeaders line0) l = false) rest ->
  let newRecords := omap (recordOf env (parseHeaders line0)) rest in
  processCSV env text s
  = {| uploadStatus := UploadStatus.success; errorMessage := errorMessage s;
       processedRows := length newRecords;
       skippedRows := length rest - length newRecords;
       effects := effects s ++ [PlaySound "diskRead";
                                ConsoleLog "New records:" newRecords;
                                PlaySound "login"; SetTimeoutOnClose 3000] |}.
Proof.
  intros Hsplit Hh Hok recs. subst recs.
  rewrite (processCSV_ok _ _ _ _ _ Hsplit Hh Hok).
  unfold succeeded, advance, started. simpl. by rewrite <- app_assoc.
Qed.

Lemma processCSV_output_witness :
  processedRows (processCSV (storeOf [])
                   (csv ["company_name,images"; "Acme,[]"; ""; ",x"; "Bolt"]) idleState) = 2 /\
  skippedRows (processCSV (storeOf [])
                 (csv ["company_name,images"; "Acme,[]"; ""; ",x"; "Bolt"]) idleState) = 2.
Proof.
  rewrite (processCSV_output (storeOf [])
             (csv ["company_name,images"; "Acme,[]"; ""; ",x"; "Bolt"])
             idleState "company_name,images" ["Acme,[]"; ""; ",x"; "Bolt"]).
  - split; vm_compute; reflexivity.
  - reflexivity.
  - compute_done.
  - repeat constructor.
Defined.

(** X2: the first converted row with a malformed [images] cell ends the
    run in the error state: the message is the one of the [SyntaxError]
    for that cell, the counters stand at the lines before that row, later
    lines are not looked at, and nothing is logged. *)
Theorem processCSV_first_malformed env text s line0 before line after :
  Js.split LF text = line0 :: (before ++ line :: after)%list ->
  ("company_name" : string) ∈ parseHeaders line0 ->
  Forall (fun l => malformedImages (parseHeaders line0) l = false) before ->
  malformedImages (parseHeaders line0) line = true ->
  let converted := omap (recordOf env (parseHeaders line0)) before in
  processCSV env text s
  = {| uploadStatus := UploadStatus.error;
       errorMessage :=
         syntaxErrorMessage env
           (default "" (rowData (parseHeaders line0) line !! "images"));
       processedRows := length converted;
       skippedRows := length before - length converted;
       effects := effects s ++ [PlaySound "diskRead"; PlaySound "error"] |}.
Proof.
  intros Hsplit Hh Hok Hbad converted. subst converted.
  rewrite (processCSV_aborted _ _ _ _ _ _ _ Hsplit Hh Hok Hbad).
  unfold failed, advance, started. simpl. by rewrite <- app_assoc.
Qed.

Lemma processCSV_first_malformed_witness :
  processCSV (storeOf [])
    (csv ["company_name,images"; "Acme,[]"; ""; "Bolt,{oops"; "Core,{later"]) idleState
  = {| uploadStatus := UploadStatus.error;
       errorMessage := "Unexpected token in JSON: {oops";
       processedRows := 1; skippedRows := 1;
       effects := [PlaySound "diskRead"; PlaySound "error"] |}.
Proof.
  rewrite (processCSV_first_malformed (storeOf [])
             (csv ["company_name,images"; "Acme,[]"; ""; "Bolt,{oops"; "Core,{later"])
             idleState "company_name,images" ["Acme,[]"; ""] "Bolt,{oops" ["Core,{later"]).
  - vm_compute. reflexivity.
  - reflexivity.
  - compute_done.
  - repeat constructor.
  - reflexivity.
Defined.

(** X3: a run succeeds exactly when the header has [company_name] and no
    converted row has a malformed [images] cell; neither the record store
    nor the state of the widget matters. *)
Theorem processCSV_success_iff env text s line0 rest :
  Js.split LF text = line0 :: rest ->
  uploadStatus (processCSV env text s) = UploadStatus.success <->
  ("company_name" : string) ∈ parseHeaders line0 /\
  Forall (fun l => malformedImages (parseHeaders line0) l = false) rest.
Proof.
  intros Hsplit.
  destruct (processCSV_trichotomy text) as (l0 & r0 & Hs & Hcase).
  rewrite Hsplit in Hs. injection Hs as <- <-.
  destruct Hcase as [Hno|[[Hh Hok]|(Hh & before & line & after & -> & Hb & Hbad)]].
  - rewrite (processCSV_no_column _ _ _ _ _ Hsplit Hno). simpl.
    split; [done|]. by intros [? _].
  - by rewrite (processCSV_ok _ _ _ _ _ Hsplit Hh Hok).
  - rewrite (processCSV_aborted _ _ _ _ _ _ _ Hsplit Hh Hb Hbad). simpl.
    split; [done|]. intros [_ Hall].
    apply Forall_app in Hall as [_ Hall]. inversion Hall; congruence.
Qed.

Lemma processCSV_success_iff_witness :
  uploadStatus (processCSV (storeOf ["CORP-0041"])
                  (csv ["Company_Name , images"; "Acme,[1]"; ",{oops"]) idleState)
  = UploadStatus.success.
Proof.
  apply (processCSV_success_iff (storeOf ["CORP-0041"])
           (csv ["Company_Name , images"; "Acme,[1]"; ",{oops"]) idleState
           "Company_Name , images" ["Acme,[1]"; ",{oops"]).
  - reflexivity.
  - split; [compute_done|]. repeat constructor.
Defined.

(** X4: what a run leaves does not depend on the state it starts from:
    the status is success or error, never idle or processing; status,
    counters and the calls made are the same from any two states; an error
    sets the same message, and a success leaves the old message in place. *)
Theorem processCSV_fresh_start env text s t :
  (uploadStatus (processCSV env text s) = UploadStatus.success \/
   uploadStatus (processCSV env text s) = UploadStatus.error) /\
  uploadStatus (processCSV env text s) = uploadStatus (processCSV env text t) /\
  processedRows (processCSV env text s) = processedRows (processCSV env text t) /\
  skippedRows (processCSV env text s) = skippedRows (processCSV env text t) /\
  (exists calls,
     effects (processCSV env text s) = (effects s ++ calls)%list /\
     effects (processCSV env text t) = (effects t ++ calls)%list) /\
  (uploadStatus (processCSV env text s) = UploadStatus.error ->
   errorMessage (processCSV env text s) = errorMessage (processCSV env text t)) /\
  (uploadStatus (processCSV env text s) = UploadStatus.success ->
   errorMessage (processCSV env text s) = errorMessage s).
Proof.
  destruct (processCSV_trichotomy text) as (line0 & rest & Hsplit & Hcase).
  destruct Hcase as [Hno|[[Hh Hok]|(Hh & before & line & after & -> & Hb & Hbad)]].
  - rewrite !(processCSV_no_column _ _ _ _ _ Hsplit Hno). simpl.
    split_and!; auto; [|done].
    eexists. split; rewrite <- app_assoc; reflexivity.
  - rewrite !(processCSV_ok _ _ _ _ _ Hsplit Hh Hok). simpl.
    split_and!; auto; [|done].
    eexists. split; rewrite <- app_assoc; reflexivity.
  - rewrite !(processCSV_aborted _ _ _ _ _ _ _ Hsplit Hh Hb Hbad). simpl.
    split_and!; auto; [|done].
    eexists. split; rewrite <- app_assoc; reflexivity.
Qed.

(** ** [convertToRecord] on any field mapping *)

(** X5: [convertToRecord] depends on the field mapping only through the
    fifteen keys it reads: two mappings that agree on them give the same
    result, so any other column of the file is ignored. *)
Theorem convertToRecord_recognized env (data1 data2 : gmap string string) :
  Forall (fun k => data1 !! k = data2 !! k) recognizedColumns ->
  convertToRecord env data1 = convertToRecord env data2.
Proof.
  intros H. unfold recognizedColumns in H.
  repeat match type of H with
         | Forall _ (_ :: _) =>
             let Hk := fresh "Hk" in
             apply Forall_cons_1 in H as [Hk H]; simpl in Hk
         end.
  clear H.
  assert (Hb : companyNameBlank data1 = companyNameBlank data2)
    by (unfold companyNameBlank; by rewrite Hk).
  destruct (companyNameBlank data1) eqn:H1.
  - by rewrite !convertToRecord_skip.
  - unfold convertToRecord.
    destruct (isRowEmpty data1) eqn:He1;
      [apply isRowEmpty_companyNameBlank in He1; congruence|].
    destruct (isRowEmpty data2) eqn:He2;
      [apply isRowEmpty_companyNameBlank in He2; congruence|].
    by rewrite Hk, Hk0, Hk1, Hk2, Hk3, Hk4, Hk5, Hk6, Hk7, Hk8, Hk9, Hk10, Hk11,
      Hk12, Hk13.
Qed.

Lemma convertToRecord_recognized_witness :
  convertToRecord (storeOf [])
    (object [("company_name", "Acme"); ("industry", "Tech"); ("zipcode", "123")])
  = convertToRecord (storeOf []) (object [("company_name", "Acme")]).
Proof.
  apply convertToRecord_recognized. compute_done.
Defined.

Lemma upperChar_space c : Js.isWhiteSpace (Js.upperChar c) = Js.isWhiteSpace c.
Proof. by destruct c as [[] [] [] [] [] [] [] []]. Qed.

Lemma upperChar_not_lower c : isLower (Js.upperChar c) = false.
Proof. by destruct c as [[] [] [] [] [] [] [] []]. Qed.

Lemma trimStart_mapChars f s :
  (forall c, Js.isWhiteSpace (f c) = Js.isWhiteSpace c) ->
  Js.trimStart (Js.mapChars f s) = Js.mapChars f (Js.trimStart s).
Proof.
  intros Hf. induction s as [|c r IH]; simpl; [done|].
  rewrite Hf. by destruct (Js.isWhiteSpace c).
Qed.

Lemma trimEnd_mapChars f s :
  (forall c, Js.isWhiteSpace (f c) = Js.isWhiteSpace c) ->
  Js.trimEnd (Js.mapChars f s) = Js.mapChars f (Js.trimEnd s).
Proof.
  intros Hf. induction s as [|c r IH]; simpl; [done|].
  rewrite IH, Hf. destruct (Js.trimEnd r); simpl; [|done].
  by destruct (Js.isWhiteSpace c).
Qed.

Lemma trim_toUpperCase s : Js.trim (Js.toUpperCase s) = Js.toUpperCase (Js.trim s).
Proof.
  unfold Js.trim, Js.toUpperCase.
  by rewrite trimStart_mapChars, trimEnd_mapChars by apply upperChar_space.
Qed.

Lemma toUpperCase_no_lower s :
  allChars (fun c => negb (isLower c)) (Js.toUpperCase s) = true.
Proof.
  induction s as [|c r IH]; simpl; [done|]. by rewrite upperChar_not_lower.
Qed.

Lemma listColumn_normalised cell dflt x :
  Forall (fun d => allChars (fun c => negb (isLower c)) d = true /\ Js.trim d = d) dflt ->
  x ∈ listColumn cell dflt ->
  allChars (fun c => negb (isLower c)) x = true /\ Js.trim x = x.
Proof.
  intros Hd. rewrite Forall_forall in Hd. unfold listColumn.
  destruct cell as [v|]; [|by apply Hd].
  destruct (Js.blank v); [by apply Hd|].
  unfold upperList. intros (piece & -> & _)%list_elem_of_fmap.
  split; [apply toUpperCase_no_lower|].
  by rewrite trim_toUpperCase, trim_idemp.
Qed.

(** X6: every element of the [category], [tags] and [language] lists of a
    converted record is trimmed and has no lower-case letter. *)
Theorem convertToRecord_lists_normalised env data r x :
  convertToRecord env data = inr (Some r) ->
  x ∈ (CompanyRecord.category r ++ CompanyRecord.tags r ++ CompanyRecord.language r)%list ->
  allChars (fun c => negb (isLower c)) x = true /\ Js.trim x = x.
Proof.
  intros (cn & images & _ & _ & _ & ->)%convertToRecord_some. simpl.
  rewrite !elem_of_app. intros [H|[H|H]];
    (eapply listColumn_normalised; [|exact H]); by repeat constructor.
Qed.

Lemma convertToRecord_lists_normalised_witness :
  exists r,
    convertToRecord (storeOf [])
      (object [("company_name", "Acme"); ("tags", " new ,Hot deal,")]) = inr (Some r) /\
    CompanyRecord.tags r = ["NEW"; "HOT DEAL"; ""] /\
    Js.trim "HOT DEAL" = "HOT DEAL".
Proof.
  destruct (convertToRecord (storeOf [])
              (object [("company_name", "Acme"); ("tags", " new ,Hot deal,")]))
    as [e|[r|]] eqn:H; [vm_compute in H; discriminate| |vm_compute in H; discriminate].
  exists r. split; [reflexivity|].
  assert (Ht : CompanyRecord.tags r = ["NEW"; "HOT DEAL"; ""])
    by (vm_compute in H; injection H as <-; reflexivity).
  split; [exact Ht|].
  apply (convertToRecord_lists_normalised (storeOf []) _ r "HOT DEAL" H).
  rewrite Ht. apply elem_of_app. right. apply elem_of_app. left. compute_done.
Defined.

(** X7: a converted record never has an empty [name], [details] or [logo],
    nor an empty [language] list; its [name] is trimmed and equals its
    [subject]; and with no text in the [images] field its [images] is the
    empty array. *)
Theorem convertToRecord_never_empty env data r :
  convertToRecord env data = inr (Some r) ->
  CompanyRecord.name r ≠ "" /\
  Js.trim (CompanyRecord.name r) = CompanyRecord.name r /\
  CompanyRecord.subject r = CompanyRecord.name r /\
  CompanyRecord.details r ≠ "" /\
  CompanyRecord.logo r ≠ "" /\
  CompanyRecord.language r ≠ [] /\
  (Js.truthy (data !! "images") = false -> CompanyRecord.images r = Json.Array []).
Proof.
  intros (cn & images & _ & Hnb & Himg & ->)%convertToRecord_some. simpl.
  apply bool_decide_eq_false in Hnb.
  assert (Hor : forall cell d, d ≠ "" -> textColumn cell d ≠ "").
  { intros cell d Hd. unfold textColumn, Js.orElse.
    destruct (Js.trim <$> cell) as [[|c s]|]; done. }
  split_and!; [done|apply trim_idemp|done|by apply Hor|by apply Hor| |].
  - unfold listColumn. destruct (data !! "language") as [v|]; [|done].
    destruct (Js.blank v); [done|]. unfold upperList.
    pose proof (split_nonempty "," v). by destruct (Js.split "," v).
  - intros Hf. unfold imagesColumn in Himg. rewrite Hf in Himg. congruence.
Qed.

Lemma convertToRecord_never_empty_witness :
  exists r,
    convertToRecord (storeOf [])
      (object [("company_name", " Acme "); ("logo", "  "); ("language", " ")])
    = inr (Some r) /\
    CompanyRecord.name r ≠ "" /\ CompanyRecord.logo r ≠ "" /\
    CompanyRecord.language r ≠ [].
Proof.
  destruct (convertToRecord (storeOf [])
              (object [("company_name", " Acme "); ("logo", "  "); ("language", " ")]))
    as [e|[r|]] eqn:H; [vm_compute in H; discriminate| |vm_compute in H; discriminate].
  exists r. split; [reflexivity|].
  destruct (convertToRecord_never_empty _ _ _ H) as (Hn & _ & _ & _ & Hl & Hlang & _).
  split_and!; assumption.
Defined.

(** ** List columns through [processCSV] *)

Lemma split_pieces_no_sep sep s :
  Forall (fun piece => allChars (fun c => negb (bool_decide (c = sep))) piece = true)
         (Js.split sep s).
Proof.
  induction s as [|c r IH]; simpl; [by repeat constructor|].
  case_bool_decide as Hc; [by constructor|].
  pose proof (split_nonempty sep r).
  destruct (Js.split sep r) as [|h t]; [done|].
  inversion_clear IH. constructor; [|done]. simpl.
  by rewrite bool_decide_false.
Qed.

(** No field of a field mapping built from a line holds a comma. *)
Lemma rowData_no_comma headers line k v :
  rowData headers line !! k = Some v ->
  allChars (fun c => negb (bool_decide (c = ","%char))) v = true.
Proof.
  apply (rowData_values
           (fun v => allChars (fun c => negb (bool_decide (c = ","%char))) v = true));
    [done|].
  apply Forall_fmap. eapply Forall_impl; [apply split_pieces_no_sep|].
  intros piece Hp. by apply trim_allChars.
Qed.

Lemma listColumn_single headers line k dflt :
  listColumn (rowData headers line !! k) dflt
  = match rowData headers line !! k with
    | Some (String c cell) => [Js.toUpperCase (String c cell)]
    | _ => dflt
    end.
Proof.
  destruct (rowData headers line !! k) as [v|] eqn:Hv; [|done]. simpl.
  pose proof (rowData_trimmed _ _ _ _ Hv) as Ht.
  pose proof (rowData_no_comma _ _ _ _ Hv) as Hc.
  unfold Js.blank. rewrite Ht. destruct v as [|c cell]; [done|].
  rewrite bool_decide_false; [|done].
  unfold upperList. rewrite (split_no_sep _ _ Hc). simpl. by rewrite Ht.
Qed.

(** C7, on the code: no line gives a field mapping whose [category] is
    ["a, b,c"], or any text with a comma, because the line is split on
    commas before the cell is; the import of the row [Acme,a, b,c] under
    the header [company_name,category] gives the one-element category
    [["A"]], not [["A"; "B"; "C"]]: the cells [b] and [c] fall under no
    header and are lost.  The default [["ENGLISH"]] of [language] is
    given. *)
Theorem C7_list_cell_cut_at_comma :
  (forall headers line, rowData headers line !! "category" ≠ Some "a, b,c") /\
  rowData (parseHeaders "company_name,category") "Acme,a, b,c"
  = object [("company_name", "Acme"); ("category", "a")] /\
  exists r others,
    effects (processCSV (storeOf [])
               (csv ["company_name,category"; "Acme,a, b,c"]) idleState)
    = PlaySound "diskRead" :: ConsoleLog "New records:" [r] :: others /\
    CompanyRecord.name r = "Acme" /\
    CompanyRecord.category r = ["A"] /\
    CompanyRecord.language r = ["ENGLISH"].
Proof.
  split_and!.
  - intros headers line H. by apply rowData_no_comma in H.
  - vm_compute. reflexivity.
  - do 2 eexists. split_and!; [vm_compute; reflexivity|reflexivity..].
Qed.

(** X8: a record converted from a line of the file has at most one
    element in [category] and in [tags] and exactly one in [language]: the
    line was split on commas before the cell is, so the cell is one
    upper-cased item, or the default when it is empty or missing. *)
Theorem processLine_lists_single env headers line r :
  convertToRecord env (rowData headers line) = inr (Some r) ->
  let item k dflt :=
    match rowData headers line !! k with
    | Some (String c cell) => [Js.toUpperCase (String c cell)]
    | _ => dflt
    end in
  CompanyRecord.category r = item "category" [] /\
  CompanyRecord.tags r = item "tags" [] /\
  CompanyRecord.language r = item "language" ["ENGLISH"] /\
  length (CompanyRecord.category r) <= 1 /\
  length (CompanyRecord.tags r) <= 1 /\
  length (CompanyRecord.language r) = 1.
Proof.
  intros (cn & images & _ & _ & _ & ->)%convertToRecord_some. simpl.
  rewrite !listColumn_single.
  split_and!; try done.
  - destruct (_ !! "category") as [[|??]|]; simpl; lia.
  - destruct (_ !! "tags") as [[|??]|]; simpl; lia.
  - by destruct (_ !! "language") as [[|??]|].
Qed.

Lemma processLine_lists_single_witness :
  exists r,
    convertToRecord (storeOf [])
      (rowData ["company_name"; "category"; "language"] "Acme,a, b,c")
    = inr (Some r) /\
    CompanyRecord.category r = ["A"] /\
    CompanyRecord.language r = ["B"].
Proof.
  destruct (convertToRecord (storeOf [])
              (rowData ["company_name"; "category"; "language"] "Acme,a, b,c"))
    as [e|[r|]] eqn:H; [vm_compute in H; discriminate| |vm_compute in H; discriminate].
  exists r. split; [reflexivity|].
  destruct (processLine_lists_single _ _ _ _ H) as (Hc & _ & Hl & _).
  split; [exact Hc|exact Hl].
Defined.

(** ** The field mapping, column by column *)

Lemma forEach_setProperty_absent (values : list string) headers i0
    (data : gmap string string) k :
  k ∉ headers ->
  forEach (fun data header index =>
             setProperty header (Js.orElse (values !! index) "") data)
          headers i0 data !! k = data !! k.
Proof.
  revert i0 data. induction headers as [|h hs IH]; intros i0 data Hk; simpl; [done|].
  apply not_elem_of_cons in Hk as [Hne Hk]. rewrite IH; [|done].
  unfold setProperty. case_bool_decide; [done|]. by rewrite lookup_insert_ne.
Qed.

Lemma orElse_default (cell : option string) : Js.orElse cell "" = default "" cell.
Proof. by destruct cell as [[|??]|]. Qed.

Lemma forEach_setProperty_lookup (values : list string) headers i0
    (data : gmap string string) i h :
  headers !! i = Some h ->
  h ≠ "__proto__" ->
  (forall j, i < j -> headers !! j ≠ Some h) ->
  forEach (fun data header index =>
             setProperty header (Js.orElse (values !! index) "") data)
          headers i0 data !! h
  = Some (default "" (values !! (i0 + i))).
Proof.
  revert i data i0. induction headers as [|h0 hs IH]; intros i data i0 Hi Hp Hlast; [done|].
  destruct i as [|i]; simpl in *.
  - injection Hi as ->. rewrite forEach_setProperty_absent.
    + unfold setProperty. rewrite bool_decide_false; [|done].
      by rewrite lookup_insert_eq, orElse_default, Nat.add_0_r.
    + intros (j & Hj)%list_elem_of_lookup_1. by apply (Hlast (S j)); [lia|].
  - rewrite (IH i _ (S i0) Hi Hp).
    + by rewrite Nat.add_succ_r.
    + intros j Hj. apply (Hlast (S j)). lia.
Qed.

Lemma rowData_at headers line i h :
  headers !! i = Some h ->
  h ≠ "__proto__" ->
  (forall j, i < j -> headers !! j ≠ Some h) ->
  rowData headers line !! h
  = Some (default "" ((Js.trim <$> Js.split "," line) !! i)).
Proof.
  intros Hi Hp Hlast. unfold rowData.
  by rewrite (forEach_setProperty_lookup _ _ _ _ i h Hi Hp Hlast).
Qed.



(** X10: the keys of the field mapping are exactly the headers, except
    [__proto__], whatever the line holds. *)
Theorem rowData_dom headers line k :
  is_Some (rowData headers line !! k) <-> k ∈ headers /\ k ≠ "__proto__".
Proof.
  unfold rowData. generalize (Js.trim <$> Js.split "," line). intros values.
  assert (Hgen : forall i0 (data : gmap string string),
    is_Some (forEach (fun data header index =>
                        setProperty header (Js.orElse (values !! index) "") data)
                     headers i0 data !! k)
    <-> (k ∈ headers /\ k ≠ "__proto__") \/ is_Some (data !! k)).
  { induction headers as [|h hs IH]; intros i0 data; simpl.
    - split; [by right|]. intros [[Hin _]|H]; [|done]. by apply elem_of_nil in Hin.
    - rewrite IH, elem_of_cons. unfold setProperty. case_bool_decide as Hp.
      + subst h. intuition congruence.
      + destruct (decide (h = k)) as [->|Hne].
        * rewrite lookup_insert_eq. split; [|by eauto]. intros _. left. by split; [left|].
        * rewrite lookup_insert_ne; [|done]. intuition congruence. }
  rewrite Hgen, lookup_empty. split; [|by left].
  intros [H|[? ?]]; done.
Qed.

(** ** Ids that [generateId] writes and reads *)






Lemma allChars_app P s1 s2 :
  allChars P (s1 ++ s2) = allChars P s1 && allChars P s2.
Proof.
  induction s1 as [|c r IH]; simpl; [done|]. by rewrite IH, andb_assoc.
Qed.









Lemma generateId_lastId env :
  generateId env
  = "CORP-" ++ Js.padStart 4 "0" (Js.toString (Js.add1 (idSuffix (lastId env)))).
Proof. reflexivity. Qed.




(** X12: when the id [generateId] starts from has no numeric suffix, as
    when it has no dash at all, the id returned is [CORP-0NaN], and the
    suffix read off that id is 0. *)
Theorem generateId_without_suffix env :
  (allChars (fun c => negb (bool_decide (c = "-"%char))) (lastId env) = true ->
   idSuffix (lastId env) = Js.NaN) /\
  (idSuffix (lastId env) = Js.NaN ->
   generateId env = "CORP-0NaN" /\ idSuffix (generateId env) = Js.Int 0).
Proof.
  split.
  - intros Hno. unfold idSuffix. by rewrite split_no_sep.
  - intros Hnan. rewrite generateId_lastId, Hnan. by split.
Qed.

Lemma generateId_without_suffix_witness :
  generateId (storeOf ["CORP-0007"; "legacy7"]) = "CORP-0NaN" /\
  generateId (storeOf ["CORP-0007"; "CORP-x7"]) = "CORP-0NaN".
Proof.
  split.
  - apply (proj2 (generateId_without_suffix (storeOf ["CORP-0007"; "legacy7"]))).
    apply (proj1 (generateId_without_suffix (storeOf ["CORP-0007"; "legacy7"]))).
    reflexivity.
  - apply (proj2 (generateId_without_suffix (storeOf ["CORP-0007"; "CORP-x7"]))).
    reflexivity.
Defined.

(** ** Files as lists of lines *)

Lemma split_app_sep sep a b :
  allChars (fun c => negb (bool_decide (c = sep))) a = true ->
  Js.split sep (a ++ String sep b) = a :: Js.split sep b.
Proof.
  induction a as [|c r IH]; simpl.
  - intros _. by rewrite bool_decide_true.
  - intros [Hc Hr]%andb_true_iff.
    change (String c r ++ String sep b) with (String c (r ++ String sep b)).
    simpl. rewrite (IH Hr). by destruct (bool_decide (c = sep)).
Qed.

(** Splitting the text of a file on line feeds gives back its lines. *)
Lemma split_csv lines :
  lines ≠ [] -> Forall (fun l => oneLine l = true) lines ->
  Js.split LF (csv lines) = lines.
Proof.
  intros Hne Hall. induction Hall as [|l rest Hl Hrest IH]; [done|].
  destruct rest as [|l2 rest]; simpl.
  - by apply split_no_sep.
  - rewrite split_app_sep; [|done]. f_equal. by apply IH.
Qed.

(** ** Letter case of the header, and carriage returns *)

Lemma lower_upper c : Js.lowerChar (Js.upperChar c) = Js.lowerChar c.
Proof. by destruct c as [[] [] [] [] [] [] [] []]. Qed.

Lemma toLowerCase_toUpperCase s : Js.toLowerCase (Js.toUpperCase s) = Js.toLowerCase s.
Proof.
  unfold Js.toLowerCase, Js.toUpperCase.
  induction s as [|c r IH]; cbn [Js.mapChars]; [done|].
  by rewrite lower_upper, IH.
Qed.

Lemma mapChars_allChars P f s :
  (forall c, P (f c) = P c) -> allChars P (Js.mapChars f s) = allChars P s.
Proof.
  intros Hf. induction s as [|c r IH]; simpl; [done|]. by rewrite Hf, IH.
Qed.

(** X13: an ASCII header line is read without regard to letter case: when
    every character of the header line is ASCII, the run on a file is the
    run on the same file with its header line in upper case. *)
Theorem processCSV_header_case env header rows s :
  allChars isAscii header = true ->
  Forall (fun l => oneLine l = true) (header :: rows) ->
  processCSV env (csv (Js.toUpperCase header :: rows)) s
  = processCSV env (csv (header :: rows)) s.
Proof.
  intros _ Hall. rewrite !processCSV_cases.
  rewrite (split_csv (header :: rows)); [|done|done].
  rewrite (split_csv (Js.toUpperCase header :: rows)); [|done|].
  - unfold parseHeaders. by rewrite toLowerCase_toUpperCase.
  - inversion_clear Hall. constructor; [|done].
    unfold oneLine, Js.toUpperCase. rewrite mapChars_allChars; [done|].
    intros c. by destruct c as [[] [] [] [] [] [] [] []].
Qed.

Lemma processCSV_header_case_witness :
  processCSV (storeOf []) (csv ["COMPANY_NAME,CITY"; "Acme,Oslo"]) idleState
  = processCSV (storeOf []) (csv ["company_name,City"; "Acme,Oslo"]) idleState.
Proof.
  apply (processCSV_header_case (storeOf []) "company_name,City" ["Acme,Oslo"] idleState).
  - reflexivity.
  - compute_done.
Defined.

Lemma trim_snoc_space s w :
  Js.isWhiteSpace w = true -> Js.trim (s ++ String w "") = Js.trim s.
Proof.
  intros Hw. unfold Js.trim.
  assert (Hend : forall t, Js.trimEnd (t ++ String w "") = Js.trimEnd t).
  { induction t as [|c r IH].
    - simpl. by rewrite Hw.
    - change (String c r ++ String w "") with (String c (r ++ String w "")).
      simpl. by rewrite IH. }
  induction s as [|c r IH].
  - simpl. by rewrite Hw.
  - change (String c r ++ String w "") with (String c (r ++ String w "")).
    simpl. destruct (Js.isWhiteSpace c); [exact IH|].
    change (String c (r ++ String w "")) with (String c r ++ String w "").
    apply Hend.
Qed.

Lemma split_snoc_char sep s w :
  w ≠ sep -> Js.split sep (s ++ String w "") = snocLast w (Js.split sep s).
Proof.
  intros Hw. induction s as [|c r IH].
  - simpl. by rewrite bool_decide_false.
  - change (String c r ++ String w "") with (String c (r ++ String w "")).
    pose proof (split_nonempty sep r) as Hne.
    cbn [Js.split]. rewrite IH. case_bool_decide.
    + by destruct (Js.split sep r).
    + destruct (Js.split sep r) as [|h [|h2 t]]; [done|done|].
      cbn [snocLast]. by destruct t.
Qed.

Lemma trim_snocLast w cells :
  Js.isWhiteSpace w = true -> Js.trim <$> snocLast w cells = Js.trim <$> cells.
Proof.
  intros Hw. induction cells as [|cell rest IH]; [done|].
  destruct rest as [|cell2 rest].
  - simpl. by rewrite trim_snoc_space.
  - change (snocLast w (cell :: cell2 :: rest))
      with (cell :: snocLast w (cell2 :: rest)).
    by rewrite !(fmap_cons _ cell), IH.
Qed.

(** A carriage return at the end of a line changes neither its cells nor
    whether it is blank. *)
Lemma cells_snoc_CR line :
  Js.trim <$> Js.split "," (line ++ String CR "") = Js.trim <$> Js.split "," line.
Proof. by rewrite split_snoc_char, trim_snocLast. Qed.

Lemma mapChars_app f s1 s2 :
  Js.mapChars f (s1 ++ s2) = Js.mapChars f s1 ++ Js.mapChars f s2.
Proof.
  induction s1 as [|c r IH]; [done|].
  change (String c r ++ s2) with (String c (r ++ s2)). cbn [Js.mapChars].
  by rewrite IH.
Qed.

Lemma parseHeaders_snoc_CR line :
  parseHeaders (line ++ String CR "") = parseHeaders line.
Proof.
  unfold parseHeaders, Js.toLowerCase. rewrite mapChars_app.
  apply cells_snoc_CR.
Qed.

Lemma processLine_snoc_CR env headers line newRecords s :
  processLine env headers (line ++ String CR "") newRecords s
  = processLine env headers line newRecords s.
Proof.
  unfold processLine, rowData, Js.blank.
  by rewrite cells_snoc_CR, trim_snoc_space.
Qed.

Lemma processLines_CR env headers lines1 lines2 newRecords s :
  Forall2 sameLine lines1 lines2 ->
  processLines env headers lines1 newRecords s
  = processLines env headers lines2 newRecords s.
Proof.
  intros H. revert newRecords s.
  induction H as [|a b r1 r2 Hab _ IH]; intros nr s; [done|].
  cbn [processLines]. unfold bind.
  assert (Hl : processLine env headers a nr s = processLine env headers b nr s)
    by (destruct Hab as [->| ->]; [done|apply processLine_snoc_CR]).
  rewrite Hl. destruct (processLine env headers b nr s) as [s' [e|nr']]; [done|].
  apply IH.
Qed.

(** X14: carriage returns at line ends do not matter: two files whose
    lines differ only in that some end with a carriage return are imported
    alike, so a file with CR LF line ends is read like the same file with
    LF line ends. *)
Theorem processCSV_CR env lines1 lines2 s :
  Forall2 sameLine lines1 lines2 ->
  Forall (fun l => oneLine l = true) lines1 ->
  processCSV env (csv lines1) s = processCSV env (csv lines2) s.
Proof.
  intros Hsame Hone1.
  assert (Hone2 : Forall (fun l => oneLine l = true) lines2).
  { clear s. induction Hsame as [|a b r1 r2 Hab _ IH]; [done|].
    inversion_clear Hone1. constructor; [|by apply IH].
    destruct Hab as [->| ->]; [done|].
    unfold oneLine in *. rewrite allChars_app in *. by destruct (allChars _ b). }
  destruct Hsame as [|a b r1 r2 Hab Hrest]; [done|].
  rewrite !processCSV_cases, !split_csv by done.
  assert (Hh : parseHeaders a = parseHeaders b)
    by (destruct Hab as [->| ->]; [done|apply parseHeaders_snoc_CR]).
  rewrite Hh. by rewrite (processLines_CR env _ r1 r2).
Qed.

Lemma processCSV_CR_witness :
  processCSV (storeOf [])
    (csv ["company_name,city" ++ String CR ""; "Acme,Oslo" ++ String CR ""; ""]) idleState
  = processCSV (storeOf []) (csv ["company_name,city"; "Acme,Oslo"; ""]) idleState.
Proof.
  apply processCSV_CR.
  - repeat constructor; by right.
  - compute_done.
Defined.

(** ** The handlers of the upload widget *)

Lemma processCSVFile_cases env file s :
  processCSVFile env file s
  = match File.text file with
    | inr text => processCSV env text s
    | inl rejected => failed (started s) (catchMessage rejected)
    end.
Proof.
  unfold processCSVFile, processCSV.
  destruct (File.text file) as [rejected|text]; [done|].
  match goal with
  | |- context [match ?run s with _ => _ end] => destruct (run s) as [s' [e|u]]
  end; done.
Qed.

Lemma processCSV_settles env text s :
  uploadStatus (processCSV env text s) = UploadStatus.success \/
  uploadStatus (processCSV env text s) = UploadStatus.error.
Proof.
  destruct (processCSV_trichotomy text) as (line0 & rest & Hsplit & Hcase).
  destruct Hcase as [Hno|[[Hh Hok]|(Hh & before & line & after & -> & Hb & Hbad)]].
  - rewrite (processCSV_no_column _ _ _ _ _ Hsplit Hno). by right.
  - rewrite (processCSV_ok _ _ _ _ _ Hsplit Hh Hok). by left.
  - rewrite (processCSV_aborted _ _ _ _ _ _ _ Hsplit Hh Hb Hbad). by right.
Qed.

(** X15: a file that cannot be read ends the run in the error state,
    with the message of the rejection when it is an [Error] object and
    [Failed to process CSV file] when it is any other value; both counters
    are reset to zero, whatever they were, and nothing is logged.  A file
    that can be read is imported as its text.  Whatever the file, a run
    that ends in error has made the two sound calls only, and a run that
    ends in success has logged once, as many records as [processedRows]
    shows. *)
Theorem processCSVFile_text env file s :
  processCSVFile env file s
  = match File.text file with
    | inr text => processCSV env text s
    | inl rejected =>
        {| uploadStatus := UploadStatus.error;
           errorMessage := match rejected with
                           | ErrorObject e => message e
                           | OtherValue => "Failed to process CSV file"
                           end;
           processedRows := 0; skippedRows := 0;
           effects := effects s ++ [PlaySound "diskRead"; PlaySound "error"] |}
    end /\
  (uploadStatus (processCSVFile env file s) = UploadStatus.error ->
   effects (processCSVFile env file s)
   = (effects s ++ [PlaySound "diskRead"; PlaySound "error"])%list) /\
  (uploadStatus (processCSVFile env file s) = UploadStatus.success ->
   exists newRecords,
     effects (processCSVFile env file s)
     = (effects s ++ [PlaySound "diskRead"; ConsoleLog "New records:" newRecords;
                      PlaySound "login"; SetTimeoutOnClose 3000])%list /\
     processedRows (processCSVFile env file s) = length newRecords).
Proof.
  rewrite processCSVFile_cases.
  destruct (File.text file) as [rejected|text].
  { unfold failed, started. simpl. rewrite <- app_assoc. by destruct rejected. }
  split; [done|].
  destruct (processCSV_trichotomy text) as (line0 & rest & Hsplit & Hcase).
  destruct Hcase as [Hno|[[Hh Hok]|(Hh & before & line & after & -> & Hb & Hbad)]].
  - rewrite (processCSV_no_column _ _ _ _ _ Hsplit Hno). simpl.
    split; [|done]. intros _. by rewrite <- app_assoc.
  - rewrite (processCSV_ok _ _ _ _ _ Hsplit Hh Hok). simpl.
    split; [done|]. intros _. eexists. split; [by rewrite <- app_assoc|done].
  - rewrite (processCSV_aborted _ _ _ _ _ _ _ Hsplit Hh Hb Hbad). simpl.
    split; [|done]. intros _. by rewrite <- app_assoc.
Qed.

Lemma processCSVFile_text_witness :
  effects (processCSVFile (storeOf [])
             {| File.type := "text/csv"; File.text := inl OtherValue |} idleState)
  = [PlaySound "diskRead"; PlaySound "error"] /\
  errorMessage (processCSVFile (storeOf [])
                  {| File.type := "text/csv"; File.text := inl OtherValue |} idleState)
  = "Failed to process CSV file".
Proof.
  destruct (processCSVFile_text (storeOf [])
              {| File.type := "text/csv"; File.text := inl OtherValue |} idleState)
    as (Heq & Herr & _).
  split.
  - apply Herr. rewrite Heq. reflexivity.
  - rewrite Heq. reflexivity.
Defined.

(** X16: after a drop the widget is no longer dragging and its status is
    success or error; unless the first dropped file has the type
    [text/csv] exactly, nothing is read: the counters and the trace stay
    as they were but for the error message and one error sound. *)
Theorem handleDrop_outcome env files w :
  let w' := handleDrop env files w in
  isDragging w' = false /\
  (uploadStatus (hooks w') = UploadStatus.success \/
   uploadStatus (hooks w') = UploadStatus.error) /\
  ((forall file, head files = Some file -> File.type file ≠ "text/csv") ->
   hooks w'
   = {| uploadStatus := UploadStatus.error;
        errorMessage := "Please upload a valid CSV file";
        processedRows := processedRows (hooks w);
        skippedRows := skippedRows (hooks w);
        effects := effects (hooks w) ++ [PlaySound "error"] |}).
Proof.
  unfold handleDrop. destruct (head files) as [file|] eqn:Hf; simpl.
  - case_bool_decide as Ht; simpl.
    + split_and!; [done| |by intros H; destruct (H file eq_refl)].
      rewrite processCSVFile_cases.
      destruct (File.text file) as [e|text]; simpl; [by right|].
      apply (processCSV_settles env text (hooks w)).
    + split_and!; [done|by right|done].
  - split_and!; [done|by right|done].
Qed.

Lemma handleDrop_outcome_witness :
  hooks (handleDrop (storeOf [])
           [{| File.type := "application/vnd.ms-excel";
               File.text := inr (csv ["company_name"; "Acme"]) |}]
           {| isDragging := true; hooks := idleState |})
  = {| uploadStatus := UploadStatus.error;
       errorMessage := "Please upload a valid CSV file";
       processedRows := 0; skippedRows := 0;
       effects := [PlaySound "error"] |}.
Proof.
  apply (handleDrop_outcome (storeOf [])
           [{| File.type := "application/vnd.ms-excel";
               File.text := inr (csv ["company_name"; "Acme"]) |}]
           {| isDragging := true; hooks := idleState |}).
  intros file [= <-]. discriminate.
Defined.



(** ** The verification control *)

Lemma flag_run_snoc props events e :
  VerificationFlag.run props (events ++ [e])
  = VerificationFlag.step props (VerificationFlag.run props events) e.
Proof. unfold VerificationFlag.run. by rewrite foldl_app. Qed.

(** X18: the callbacks are called once for each click, in the order of the
    clicks, [onVerify] for the verify icon and [onFlag] for the flag icon,
    each with the field of the control; closing the popup calls nothing. *)
Theorem flag_calls props events :
  snd (VerificationFlag.run props events)
  = omap (VerificationFlag.callOf props) events.
Proof.
  induction events as [|e events IH] using rev_ind; [done|].
  rewrite flag_run_snoc, omap_app. simpl.
  destruct e as [[]|]; simpl; rewrite IH; [done|done|by rewrite app_nil_r].
Qed.

(** X19: the popup is shown exactly when the last thing the user did was a
    click, and then it carries the action of that click, the record id and
    the field: it is never shown without an action.  Closing the popup
    keeps the action in the state. *)
Theorem flag_popup props events :
  VerificationFlag.popup props (fst (VerificationFlag.run props events))
  = match last events with
    | Some (VerificationFlag.Click type) =>
        Some {| VerificationFlag.popupAction := Some type;
                VerificationFlag.popupRecordId := VerificationFlag.recordId props;
                VerificationFlag.popupFieldName := VerificationFlag.field props |}
    | _ => None
    end /\
  (forall before,
     events = (before ++ [VerificationFlag.Close])%list ->
     VerificationFlag.action (fst (VerificationFlag.run props events))
     = VerificationFlag.action (fst (VerificationFlag.run props before))).
Proof.
  split.
  - destruct events as [|e events] using rev_ind; [done|].
    rewrite flag_run_snoc, last_snoc. by destruct e as [[]|].
  - intros before ->. by rewrite flag_run_snoc.
Qed.

(** ** What each record of a run holds *)

Lemma recordOf_convert env headers line r :
  recordOf env headers line = Some r ->
  convertToRecord env (rowData headers line) = inr (Some r).
Proof.
  unfold recordOf, rowOutcome. destruct (Js.blank line); [done|].
  destruct (convertToRecord _ _) as [e|[r'|]]; [done| |done]. by intros [= ->].
Qed.

(** X21: whatever the file holds, a record of a run has an empty
    [zipCode] and an empty [taxId]: the headers are lower-cased before they
    become keys, and the two fields are read under keys with a capital
    letter. *)
Theorem recordOf_zipCode_taxId env line0 line r :
  recordOf env (parseHeaders line0) line = Some r ->
  CompanyRecord.zipCode r = "" /\ CompanyRecord.taxId r = "".
Proof.
  intros H%recordOf_convert.
  apply convertToRecord_some in H as (cn & images & _ & _ & _ & ->). simpl.
  by rewrite !rowData_no_capital_key.
Qed.

Lemma recordOf_zipCode_taxId_witness :
  exists r,
    recordOf (storeOf []) (parseHeaders "company_name,ZIPCODE,taxId") "Acme,0150,N-1"
    = Some r /\
    CompanyRecord.zipCode r = "" /\ CompanyRecord.taxId r = "".
Proof.
  destruct (recordOf (storeOf []) (parseHeaders "company_name,ZIPCODE,taxId")
              "Acme,0150,N-1") as [r|] eqn:H; [|vm_compute in H; discriminate].
  exists r. split; [reflexivity|].
  exact (recordOf_zipCode_taxId _ _ _ _ H).
Defined.

(** X22: the text columns with lower-case names are copied: for a header
    that occurs once, at position [i], the field of the record is the
    trimmed cell [i] of the line, or empty when the line is shorter. *)
Theorem recordOf_text_columns env headers line r i :
  recordOf env headers line = Some r ->
  let cell := default "" ((Js.trim <$> Js.split "," line) !! i) in
  let unique h :=
    headers !! i = Some h /\ forall j, i < j -> headers !! j ≠ Some h in
  (unique "address" -> CompanyRecord.address r = cell) /\
  (unique "city" -> CompanyRecord.city r = cell) /\
  (unique "country" -> CompanyRecord.country r = cell) /\
  (unique "ceo" -> CompanyRecord.ceo r = cell) /\
  (unique "description" -> CompanyRecord.description r = cell) /\
  (unique "twitter" -> CompanyRecord.twitter (CompanyRecord.socialMedia r) = cell) /\
  (unique "linkedin" -> CompanyRecord.linkedin (CompanyRecord.socialMedia r) = cell) /\
  (unique "company_name" -> CompanyRecord.name r = cell).
Proof.
  intros H%recordOf_convert cell unique.
  pose proof (convertToRecord_lowercase_columns _ _ _ _ H)
    as (Ha & Hc & Hco & Hce & Hd & Ht & Hl).
  assert (Hget : forall h, unique h -> h ≠ "__proto__" ->
                 default "" (rowData headers line !! h) = cell).
  { intros h [Hi Hlast] Hp. by rewrite (rowData_at headers line i h Hi Hp Hlast). }
  split_and!; intros Hu;
    try (etransitivity; [eassumption|]; by apply Hget).
  apply convertToRecord_some in H as (cn & images & Hcn & _ & _ & ->). simpl.
  destruct Hu as [Hi Hlast].
  rewrite (rowData_at headers line i "company_name" Hi) in Hcn; [|done|done].
  injection Hcn as <-. unfold cell.
  destruct (_ !! i) as [c|] eqn:Hc'; [|done]. simpl.
  apply list_lookup_fmap_Some in Hc' as (raw & -> & _). apply trim_idemp.
Qed.

Lemma recordOf_text_columns_witness :
  exists r,
    recordOf (storeOf []) ["company_name"; "city"; "ceo"] " Acme , Oslo " = Some r /\
    CompanyRecord.city r = "Oslo" /\ CompanyRecord.ceo r = "".
Proof.
  destruct (recordOf (storeOf []) ["company_name"; "city"; "ceo"] " Acme , Oslo ")
    as [r|] eqn:H; [|vm_compute in H; discriminate].
  exists r. split; [reflexivity|]. split.
  - apply (recordOf_text_columns _ _ _ _ 1 H). split; [reflexivity|].
    intros [|[|[|j]]] Hj; simpl; try lia; discriminate.
  - apply (recordOf_text_columns _ _ _ _ 2 H). split; [reflexivity|].
    intros [|[|[|j]]] Hj; simpl; try lia; discriminate.
Defined.

(** X23: a line is skipped exactly when the [company_name] field of its
    field mapping is missing or blank; blank lines and rows with only blank
    fields are among these, and no other test decides. *)
Theorem rowOutcome_skip_iff env headers line :
  rowOutcome env headers line = inr None <->
  companyNameBlank (rowData headers line) = true.
Proof.
  split; [|intros H; apply rowOutcome_skip; by right].
  unfold rowOutcome. destruct (Js.blank line) eqn:Hline.
  - intros _. by apply companyNameBlank_line.
  - unfold convertToRecord, companyNameBlank.
    destruct (isRowEmpty _) eqn:He.
    + intros _. by apply isRowEmpty_companyNameBlank in He.
    + destruct (_ !! "company_name") as [cn|]; [|done].
      destruct (Js.blank cn); [done|].
      by destruct (imagesColumn _ _).
Qed.
